(** * StreamlitCropper: the crop rectangle's constraint logic

    A shallow embedding of [src/streamlit_cropper/frontend/src/StreamlitCropper.tsx]:
    the helper [clamp], the constraint function [keepRectInsideCanvas] and the
    React effects of the component: the two that create and reconfigure the
    rectangle, the one that binds the gesture listeners and the one that
    sends the coordinates to the host.

    Numbers.  A JavaScript number is modelled as an exact rational; rounding
    of IEEE doubles is not modelled.  A value that may be missing or not a
    number has type [num = option Q]: in a field of an object [None] is
    [undefined] (the field is unset), in the result of an arithmetic
    operation it is [NaN] (arithmetic on [undefined] gives [NaN]).  Infinite
    values do not occur: the only divisions of the program are modelled by
    [divide], which reports a zero divisor instead of returning a number.
    A position [left] or [top] that is [NaN] is not represented ([NaN ?? 0]
    is [NaN], which [clamp] returns as it is).

    The theorems are about what the program compares and stores: bounds are
    stated against the quotients, products and differences the program
    computes, and no statement rests on an identity of exact arithmetic
    such as [b * (a / b) = a], which rounding breaks. *)

From Stdlib Require Import QArith Lqa Lia Bool List String PeanoNat.
Import ListNotations.

Open Scope Q_scope.

(** ** Numbers and the operators the source applies to them *)

Definition num : Type := option Q.

Definition Qlt_bool (x y : Q) : bool := negb (Qle_bool y x).

Module JS.

(** [a < b]: false as soon as one side is [NaN]. *)
Definition lt (a b : num) : bool :=
  match a, b with
  | Some x, Some y => Qlt_bool x y
  | _, _ => false
  end.

(** [a > b]. *)
Definition gt (a b : num) : bool := lt b a.

(** [x || d] on numbers: [0], [NaN] and [undefined] are falsy. *)
Definition or_else (x : num) (d : Q) : Q :=
  match x with
  | Some q => if Qeq_bool q 0 then d else q
  | None => d
  end.

(** [x ?? d]: only [undefined] is replaced. *)
Definition nullish (x : num) (d : Q) : Q :=
  match x with
  | Some q => q
  | None => d
  end.

(** [a * b] and [a - b]; [undefined] operands coerce to [NaN]. *)
Definition mul (a b : num) : num :=
  match a, b with
  | Some x, Some y => Some (x * y)
  | _, _ => None
  end.

Definition sub (a b : num) : num :=
  match a, b with
  | Some x, Some y => Some (x - y)
  | _, _ => None
  end.

(** [Math.max(a, b)]: [NaN] if one argument is. *)
Definition Math_max (a b : num) : num :=
  match a, b with
  | Some x, Some y => Some (if Qle_bool x y then y else x)
  | _, _ => None
  end.

(** [Math.min(a, b)] on two finite numbers. *)
Definition Math_min (a b : Q) : Q := if Qle_bool a b then a else b.

End JS.

(** ** Outcomes

    A run either returns a value or stops at a division whose divisor is
    zero.  JavaScript itself would not stop there (it would produce an
    infinity or [NaN]); the model stops so that "no division by zero" is a
    statement about the control flow of the embedded code. *)

Inductive outcome (A : Type) : Type :=
| Ok (a : A)
| DivisionByZero.

Arguments Ok {A} a.
Arguments DivisionByZero {A}.

Definition bind {A B : Type} (m : outcome A) (k : A -> outcome B) : outcome B :=
  match m with
  | Ok a => k a
  | DivisionByZero => DivisionByZero
  end.

Notation "x <- m ;; k" := (bind m (fun x => k))
  (at level 61, m at next level, right associativity).

(** [a / b]. *)
Definition divide (a b : Q) : outcome Q :=
  if Qeq_bool b 0 then DivisionByZero else Ok (a / b).

(** [returns m P]: the run [m] returns, and its value satisfies [P]. *)
Definition returns {A : Type} (m : outcome A) (P : A -> Prop) : Prop :=
  match m with
  | Ok a => P a
  | DivisionByZero => False
  end.

(** ** The drawing library's objects

    The drawing library is not part of the repository.  Its objects are
    records of the fields the source reads and writes, [rect.set] is a field
    update, and the methods whose effect lies inside the library are logged
    as calls. *)

Record Rect : Type := mkRect {
  left : num;
  top : num;
  width : num;
  height : num;
  scaleX : num;
  scaleY : num;
  stroke : string;
  strokeWidth : num;
  hasRotatingControl : bool
}.

Record Canvas : Type := mkCanvas {
  getWidth : Q;
  getHeight : Q
}.

Inductive Call : Type :=
| SetControlsVisibility (edges : bool)  (* mt, mb, ml, mr; corners on, mtr off *)
| Add                                   (* fabricCanvas.add(rect) *)
| SetCoords                             (* rect.setCoords() *)
| RequestRenderAll                      (* canvas.requestRenderAll() *)
| SetFrameHeight.                       (* Streamlit.setFrameHeight() *)

Definition set_left (r : Rect) (v : num) : Rect :=
  mkRect v (top r) (width r) (height r) (scaleX r) (scaleY r)
         (stroke r) (strokeWidth r) (hasRotatingControl r).

Definition set_top (r : Rect) (v : num) : Rect :=
  mkRect (left r) v (width r) (height r) (scaleX r) (scaleY r)
         (stroke r) (strokeWidth r) (hasRotatingControl r).

Definition set_scaleX (r : Rect) (v : num) : Rect :=
  mkRect (left r) (top r) (width r) (height r) v (scaleY r)
         (stroke r) (strokeWidth r) (hasRotatingControl r).

Definition set_scaleY (r : Rect) (v : num) : Rect :=
  mkRect (left r) (top r) (width r) (height r) (scaleX r) v
         (stroke r) (strokeWidth r) (hasRotatingControl r).

(** Modelled from the spec: [rect.getScaledWidth()] and
    [rect.getScaledHeight()] are methods of the drawing library, which is
    not under src/.  The spec's data model gives them as
    [scaledWidth = width * scaleX] and [scaledHeight = height * scaleY]. *)
Definition getScaledWidth (r : Rect) : num := JS.mul (width r) (scaleX r).
Definition getScaledHeight (r : Rect) : num := JS.mul (height r) (scaleY r).

(** ** [clamp] (lines 19-23) *)

Definition clamp (value min max : num) : num :=
  if JS.lt value min then min
  else if JS.gt value max then max
  else value.

(** ** [keepRectInsideCanvas] (lines 25-68)

    The rectangle is mutated in place by the source; here the updated
    rectangle is returned, with the library calls made on the way. *)

Definition keepRectInsideCanvas (rect : Rect) (fabricCanvas : Canvas) (lockAspect : bool)
  : outcome (Rect * list Call) :=
  let canvasWidth := getWidth fabricCanvas in
  let canvasHeight := getHeight fabricCanvas in
  let baseWidth := JS.or_else (width rect) 0 in
  let baseHeight := JS.or_else (height rect) 0 in
  let currentScaleX := JS.or_else (scaleX rect) 1 in
  let currentScaleY := JS.or_else (scaleY rect) 1 in
  rect <-
    (if Qlt_bool 0 baseWidth && Qlt_bool 0 baseHeight then
       maxScaleX <- divide canvasWidth baseWidth ;;
       maxScaleY <- divide canvasHeight baseHeight ;;
       if lockAspect then
         let maxUniformScale := JS.Math_min maxScaleX maxScaleY in
         if Qlt_bool maxUniformScale currentScaleX || Qlt_bool maxUniformScale currentScaleY
         then Ok (set_scaleY (set_scaleX rect (Some maxUniformScale)) (Some maxUniformScale))
         else Ok rect
       else
         let rect :=
           if Qlt_bool maxScaleX currentScaleX then set_scaleX rect (Some maxScaleX) else rect in
         let rect :=
           if Qlt_bool maxScaleY currentScaleY then set_scaleY rect (Some maxScaleY) else rect in
         Ok rect
     else Ok rect) ;;
  let scaledWidth := getScaledWidth rect in
  let scaledHeight := getScaledHeight rect in
  let maxLeft := JS.Math_max (JS.sub (Some canvasWidth) scaledWidth) (Some 0) in
  let maxTop := JS.Math_max (JS.sub (Some canvasHeight) scaledHeight) (Some 0) in
  let nextLeft := clamp (Some (JS.nullish (left rect) 0)) (Some 0) maxLeft in
  let nextTop := clamp (Some (JS.nullish (top rect) 0)) (Some 0) maxTop in
  Ok (set_top (set_left rect nextLeft) nextTop, [SetCoords; RequestRenderAll]).

(** ** The component (lines 71-186) *)

Module PythonArgs.
Record t : Type := mk {
  canvasWidth : Q;
  canvasHeight : Q;
  rectTop : num;
  rectLeft : num;
  rectWidth : num;
  rectHeight : num;
  realtimeUpdate : bool;
  boxColor : string;
  strokeWidth : num;
  imageData : string;
  lockAspect : bool
}.
End PythonArgs.

(** The [<canvas>] element of line 220, with the size attributes the render
    gave it. *)
Record HTMLCanvasElement : Type := mkElement {
  elementWidth : Q;
  elementHeight : Q
}.

(** What the hooks hold: [canvasRef.current], the [canvas] state and
    [rectRef.current].  The rectangle is one shared object: the one the
    canvas displays is the one [rectRef] points to. *)
Record Component : Type := mkComponent {
  canvasRef : option HTMLCanvasElement;
  canvas : option Canvas;
  rectRef : option Rect
}.

(** The render of lines 218-222 mounts the element. *)
Definition render (args : PythonArgs.t) (st : Component) : Component :=
  mkComponent
    (Some (mkElement (PythonArgs.canvasWidth args) (PythonArgs.canvasHeight args)))
    (canvas st) (rectRef st).

(** The first effect (lines 82-135).  [new Canvas(element)] takes the size
    of the element; [new Rect] leaves the scale factors at the library's
    default, 1. *)
Definition initEffect (args : PythonArgs.t) (st : Component)
  : outcome (Component * list Call) :=
  match canvasRef st, canvas st with
  | Some element, None =>
      let lockAspect := PythonArgs.lockAspect args in
      let fabricCanvas := mkCanvas (elementWidth element) (elementHeight element) in
      let rect :=
        mkRect (PythonArgs.rectLeft args) (PythonArgs.rectTop args)
               (PythonArgs.rectWidth args) (PythonArgs.rectHeight args)
               (Some 1) (Some 1)
               (PythonArgs.boxColor args) (PythonArgs.strokeWidth args) false in
      out <- keepRectInsideCanvas rect fabricCanvas lockAspect ;;
      let (rect, calls) := out in
      Ok (mkComponent (canvasRef st) (Some fabricCanvas) (Some rect),
          [SetControlsVisibility (negb lockAspect); Add] ++ calls ++ [SetFrameHeight])
  | _, _ => Ok (st, [])
  end.

(** The second effect (lines 138-166), run when [props.args] or [canvas]
    changes. *)
Definition reconfigureEffect (args : PythonArgs.t) (st : Component)
  : outcome (Component * list Call) :=
  match canvas st, rectRef st with
  | Some canvas, Some rect =>
      let lockAspect := PythonArgs.lockAspect args in
      let rect :=
        mkRect (PythonArgs.rectLeft args) (PythonArgs.rectTop args)
               (PythonArgs.rectWidth args) (PythonArgs.rectHeight args)
               (scaleX rect) (scaleY rect)
               (PythonArgs.boxColor args) (PythonArgs.strokeWidth args) false in
      out <- keepRectInsideCanvas rect canvas lockAspect ;;
      let (rect, calls) := out in
      Ok (mkComponent (canvasRef st) (Some canvas) (Some rect),
          [SetControlsVisibility (negb lockAspect); SetCoords; RequestRenderAll] ++ calls)
  | _, _ => Ok (st, [])
  end.

(** The listener [enforceBounds] of the third effect (lines 173-178), as it
    runs on a "moving" event: the library has moved the rectangle to
    [(x, y)] and fires the event. *)
Definition onMoving (args : PythonArgs.t) (x y : Q) (st : Component)
  : outcome (Component * list Call) :=
  match canvas st, rectRef st with
  | Some canvas, Some rect =>
      let rect := set_top (set_left rect (Some x)) (Some y) in
      out <- keepRectInsideCanvas rect canvas (PythonArgs.lockAspect args) ;;
      let (rect, calls) := out in
      Ok (mkComponent (canvasRef st) (Some canvas) (Some rect), calls)
  | _, _ => Ok (st, [])
  end.

(** ** The two phases of [keepRectInsideCanvas]

    [rescale] is the guarded block of lines 33-53 with the quotients
    written as plain rationals, [reposition] is lines 55-65. *)

Definition guard (rect : Rect) : bool :=
  Qlt_bool 0 (JS.or_else (width rect) 0) && Qlt_bool 0 (JS.or_else (height rect) 0).

Definition maxScaleX (rect : Rect) (c : Canvas) : Q :=
  getWidth c / JS.or_else (width rect) 0.

Definition maxScaleY (rect : Rect) (c : Canvas) : Q :=
  getHeight c / JS.or_else (height rect) 0.

Definition maxUniformScale (rect : Rect) (c : Canvas) : Q :=
  JS.Math_min (maxScaleX rect c) (maxScaleY rect c).

Definition rescale (rect : Rect) (c : Canvas) (lockAspect : bool) : Rect :=
  let currentScaleX := JS.or_else (scaleX rect) 1 in
  let currentScaleY := JS.or_else (scaleY rect) 1 in
  if guard rect then
    if lockAspect then
      let m := maxUniformScale rect c in
      if Qlt_bool m currentScaleX || Qlt_bool m currentScaleY
      then set_scaleY (set_scaleX rect (Some m)) (Some m)
      else rect
    else
      let rect1 :=
        if Qlt_bool (maxScaleX rect c) currentScaleX
        then set_scaleX rect (Some (maxScaleX rect c)) else rect in
      if Qlt_bool (maxScaleY rect c) currentScaleY
      then set_scaleY rect1 (Some (maxScaleY rect c)) else rect1
  else rect.

Definition maxLeft (rect : Rect) (c : Canvas) : num :=
  JS.Math_max (JS.sub (Some (getWidth c)) (getScaledWidth rect)) (Some 0).

Definition maxTop (rect : Rect) (c : Canvas) : num :=
  JS.Math_max (JS.sub (Some (getHeight c)) (getScaledHeight rect)) (Some 0).

Definition reposition (rect : Rect) (c : Canvas) : Rect :=
  set_top
    (set_left rect (clamp (Some (JS.nullish (left rect) 0)) (Some 0) (maxLeft rect c)))
    (clamp (Some (JS.nullish (top rect) 0)) (Some 0) (maxTop rect c)).

(** ** Predicates of the specification *)

(** Equality of two numbers as numbers ([Q] has several fractions for one
    rational). *)
Definition num_eq (a b : num) : Prop :=
  match a, b with
  | Some x, Some y => x == y
  | None, None => True
  | _, _ => False
  end.

(** The rectangle lies inside the canvas: the invariant of the spec's data
    model, on the scaled size [width * scaleX] by [height * scaleY]. *)
Definition inside (r : Rect) (c : Canvas) : Prop :=
  match left r, top r, getScaledWidth r, getScaledHeight r with
  | Some l, Some t, Some w, Some h =>
      0 <= l /\ 0 <= t /\ l + w <= getWidth c /\ t + h <= getHeight c
  | _, _, _, _ => False
  end.

(** The bounds a run establishes, in the values the function itself
    computes: the position within [[0, Math.max(canvas - scaled, 0)]] and
    each scale factor at most its quotient [canvas / base]. *)
Definition bounded (r : Rect) (c : Canvas) : Prop :=
  exists l t s s' m m' : Q,
    left r = Some l /\ top r = Some t /\
    scaleX r = Some s /\ scaleY r = Some s' /\
    maxLeft r c = Some m /\ maxTop r c = Some m' /\
    0 <= l <= m /\ 0 <= t <= m' /\
    s <= maxScaleX r c /\ s' <= maxScaleY r c.

(** A base size that is "zero or unset". *)
Definition zero_or_unset (x : num) : Prop :=
  match x with
  | Some q => q == 0
  | None => True
  end.

(** A requested scale factor that is within a bound. *)
Definition within (s : num) (bound : Q) : Prop :=
  match s with
  | Some q => q <= bound
  | None => False
  end.

(** Position and size of two rectangles agree. *)
Definition same_position_and_size (a b : Rect) : Prop :=
  left a = left b /\ top a = top b /\ width a = width b /\ height a = height b.

(** The component holds canvas [c] and a rectangle whose size is the
    configured one and whose position is the configured one, clamped. *)
Definition configured (args : PythonArgs.t) (c : Canvas) (st : Component) : Prop :=
  exists r : Rect,
    rectRef st = Some r /\ canvas st = Some c /\
    width r = PythonArgs.rectWidth args /\
    height r = PythonArgs.rectHeight args /\
    left r
    = clamp (Some (JS.nullish (PythonArgs.rectLeft args) 0)) (Some 0) (maxLeft r c) /\
    top r
    = clamp (Some (JS.nullish (PythonArgs.rectTop args) 0)) (Some 0) (maxTop r c).

(** Under aspect lock the scale clamp fires: the base size is positive and
    one of the current scale factors exceeds the uniform maximum. *)
Definition exceeds_uniform (r : Rect) (c : Canvas) : Prop :=
  guard r = true /\
  (maxUniformScale r c < JS.or_else (scaleX r) 1 \/
   maxUniformScale r c < JS.or_else (scaleY r) 1).

(** ** Scenarios of the spec, run on the model *)

Definition rect100 (l t sx sy : Q) : Rect :=
  mkRect (Some l) (Some t) (Some 100) (Some 100) (Some sx) (Some sy) "red" (Some 1) false.

Definition canvas400x300 : Canvas := mkCanvas 400 300.

(** A rectangle whose base height is zero, wider than the canvas. *)
Definition flatRect : Rect :=
  mkRect (Some 0) (Some 0) (Some 500) (Some 0) (Some 1) (Some 1) "red" (Some 1) false.

(** A configuration, and the same one with another colour. *)
Definition redArgs : PythonArgs.t :=
  PythonArgs.mk 400 300 (Some 50) (Some 50) (Some 100) (Some 100)
                true "red" (Some 2) "" false.

Definition blueArgs : PythonArgs.t :=
  PythonArgs.mk 400 300 (Some 50) (Some 50) (Some 100) (Some 100)
                true "blue" (Some 2) "" false.

Definition unmounted : Component := mkComponent None None None.

(** The component once the rectangle has been dragged to (10, 20). *)
Definition draggedRect : Rect :=
  mkRect (Some 10) (Some 20) (Some 100) (Some 100) (Some 1) (Some 1) "red" (Some 2) false.

Definition dragged : Component :=
  mkComponent (Some (mkElement 400 300)) (Some canvas400x300) (Some draggedRect).

(** Mount, initialise, reconfigure once (the re-render that [setCanvas]
    causes), drag the rectangle to (10, 20), then receive [blueArgs]. *)
Definition session : outcome (Component * Component) :=
  o1 <- initEffect redArgs (render redArgs unmounted) ;;
  o2 <- reconfigureEffect redArgs (fst o1) ;;
  o3 <- onMoving redArgs 10 20 (fst o2) ;;
  o4 <- reconfigureEffect blueArgs (fst o3) ;;
  Ok (fst o3, fst o4).

(** ** The widget over a sequence of events (lines 138-186)

    What follows composes the effects as React runs them.  A new
    [props.args] object arrives with every message of the host; the second
    effect depends on it and runs every time, the third effect depends on
    [canvas] and [props.args.lockAspect] and runs again when the flag
    changed. *)

(** The closure [enforceBounds] of lines 173-175. *)
Definition enforceBounds (lockAspect : bool) (st : Component)
  : outcome (Component * list Call) :=
  match canvas st, rectRef st with
  | Some canvas, Some rect =>
      out <- keepRectInsideCanvas rect canvas lockAspect ;;
      let (rect, calls) := out in
      Ok (mkComponent (canvasRef st) (Some canvas) (Some rect), calls)
  | _, _ => Ok (st, [])
  end.

(** The listener on a "scaling" event: the library has given the rectangle
    the scale factors [(sx, sy)] and the position [(x, y)] of the gesture
    and fires the event. *)
Definition onScaling (args : PythonArgs.t) (sx sy x y : Q) (st : Component)
  : outcome (Component * list Call) :=
  match canvas st, rectRef st with
  | Some canvas, Some rect =>
      let rect :=
        set_top (set_left (set_scaleY (set_scaleX rect (Some sx)) (Some sy)) (Some x))
                (Some y) in
      out <- keepRectInsideCanvas rect canvas (PythonArgs.lockAspect args) ;;
      let (rect, calls) := out in
      Ok (mkComponent (canvasRef st) (Some canvas) (Some rect), calls)
  | _, _ => Ok (st, [])
  end.

Record Widget : Type := mkWidget {
  props : PythonArgs.t;
  hooks : Component
}.

(** The first render and its effects, then the render that [setCanvas]
    causes: in the first commit the effects after the first one still see
    [canvas = null] and return; in the second the second and third effects
    run. *)
Definition mount (args : PythonArgs.t) : outcome Widget :=
  o1 <- initEffect args (render args unmounted) ;;
  o2 <- reconfigureEffect args (render args (fst o1)) ;;
  o3 <- enforceBounds (PythonArgs.lockAspect args) (fst o2) ;;
  Ok (mkWidget args (fst o3)).

(** A render with new [props.args]. *)
Definition rerender (args : PythonArgs.t) (w : Widget) : outcome Widget :=
  o2 <- reconfigureEffect args (render args (hooks w)) ;;
  o3 <- (if Bool.eqb (PythonArgs.lockAspect args) (PythonArgs.lockAspect (props w))
         then Ok (fst o2, [])
         else enforceBounds (PythonArgs.lockAspect args) (fst o2)) ;;
  Ok (mkWidget args (fst o3)).

Inductive Action : Type :=
| NewArgs (args : PythonArgs.t)
| Moving (x y : Q)
| Scaling (sx sy x y : Q).

Definition step (a : Action) (w : Widget) : outcome Widget :=
  match a with
  | NewArgs args => rerender args w
  | Moving x y =>
      out <- onMoving (props w) x y (hooks w) ;;
      Ok (mkWidget (props w) (fst out))
  | Scaling sx sy x y =>
      out <- onScaling (props w) sx sy x y (hooks w) ;;
      Ok (mkWidget (props w) (fst out))
  end.

Fixpoint steps (l : list Action) (w : Widget) : outcome Widget :=
  match l with
  | [] => Ok w
  | a :: l' => w' <- step a w ;; steps l' w'
  end.

(** A configuration whose rectangle has a positive size. *)
Definition well_sized (args : PythonArgs.t) : Prop :=
  exists w h : Q,
    PythonArgs.rectWidth args = Some w /\ PythonArgs.rectHeight args = Some h /\
    0 < w /\ 0 < h.

Definition well_sized_action (a : Action) : Prop :=
  match a with
  | NewArgs args => well_sized args
  | _ => True
  end.

(** The widget shows a rectangle within the bounds of its canvas. *)
Definition kept_in_bounds (w : Widget) : Prop :=
  exists (c : Canvas) (r : Rect),
    canvas (hooks w) = Some c /\ rectRef (hooks w) = Some r /\ bounded r c.

(** The invariant the events keep: a canvas, and a rectangle of positive
    base size within its bounds. *)
Definition settled (c : Canvas) (st : Component) : Prop :=
  canvas st = Some c /\
  exists (r : Rect) (w h : Q),
    rectRef st = Some r /\
    width r = Some w /\ height r = Some h /\ 0 < w /\ 0 < h /\
    bounded r c.

(** ** The listeners on the rectangle (lines 168-186)

    The rectangle keeps the handlers registered with [rect.on]; each run of
    the effect creates a new function [enforceBounds], told apart here by a
    number, which holds the [lockAspect] of its render.  [rect.off(name, f)]
    removes the handler [f] of the event [name].  React runs the cleanup
    the previous run returned before it runs the effect again. *)

Inductive RectEvent : Type := moving | scaling.

Definition same_rect_event (a b : RectEvent) : bool :=
  match a, b with
  | moving, moving | scaling, scaling => true
  | _, _ => false
  end.

Record Listener : Type := mkListener {
  heard : RectEvent;
  closure : nat;
  capturedLock : bool
}.

Record Binding : Type := mkBinding {
  rectListeners : list Listener;
  bindCleanup : option nat;
  freshClosure : nat
}.

Definition unbound : Binding := mkBinding [] None 0.

Definition rect_off (name : RectEvent) (f : nat) (ls : list Listener) : list Listener :=
  filter (fun l => negb (same_rect_event (heard l) name && Nat.eqb (closure l) f)) ls.

(** The registrations of one run of the third effect, after the cleanup of
    the run before. *)
Definition rebind (args : PythonArgs.t) (st : Component) (b : Binding) : Binding :=
  let ls :=
    match bindCleanup b with
    | Some f => rect_off scaling f (rect_off moving f (rectListeners b))
    | None => rectListeners b
    end in
  match canvas st, rectRef st with
  | Some _, Some _ =>
      let lockAspect := PythonArgs.lockAspect args in
      let f := freshClosure b in
      mkBinding (ls ++ [mkListener moving f lockAspect; mkListener scaling f lockAspect])
                (Some f) (S f)
  | _, _ => mkBinding ls None (freshClosure b)
  end.

(** The third effect: the registrations, and the call of line 180. *)
Definition bindEffect (args : PythonArgs.t) (st : Component) (b : Binding)
  : outcome (Component * Binding) :=
  match canvas st, rectRef st with
  | Some _, Some _ =>
      out <- enforceBounds (PythonArgs.lockAspect args) st ;;
      Ok (fst out, rebind args st b)
  | _, _ => Ok (st, rebind args st b)
  end.

(** The rectangle fires an event: the handlers registered for it run in
    the order of their registration. *)
Fixpoint dispatch (ls : list Listener) (name : RectEvent) (st : Component)
  : outcome (Component * list Call) :=
  match ls with
  | [] => Ok (st, [])
  | l :: ls' =>
      if same_rect_event (heard l) name then
        o <- enforceBounds (capturedLock l) st ;;
        o' <- dispatch ls' name (fst o) ;;
        Ok (fst o', snd o ++ snd o')
      else dispatch ls' name st
  end.

Fixpoint bindHistory (h : list (PythonArgs.t * Component)) (b : Binding) : Binding :=
  match h with
  | [] => b
  | (args, st) :: h' => bindHistory h' (rebind args st b)
  end.

(** ** Sending the coordinates (lines 193-216)

    The canvas keeps the handlers registered with [canvas.on];
    [canvas.off(name)] removes every handler of the event [name].  The
    effect has no dependency list: it runs after every render, after the
    cleanup the previous run returned. *)

Inductive CanvasEvent : Type := object_modified | mouse_dblclick.

Definition same_canvas_event (a b : CanvasEvent) : bool :=
  match a, b with
  | object_modified, object_modified | mouse_dblclick, mouse_dblclick => true
  | _, _ => false
  end.

Record BoundingRect : Type := mkBoundingRect {
  boxLeft : num;
  boxTop : num;
  boxWidth : num;
  boxHeight : num
}.

(** Modelled from the spec: [getBoundingRect()] is a method of the drawing
    library, which is not under src/.  The spec's data model gives
    [boundingBox = {left, top, scaledWidth, scaledHeight}]. *)
Definition getBoundingRect (r : Rect) : BoundingRect :=
  mkBoundingRect (left r) (top r) (getScaledWidth r) (getScaledHeight r).

(** [handleEvent] (lines 198-202): the value given to
    [Streamlit.setComponentValue], [{coords: coords}].  The first object of
    the canvas is the rectangle; without one the call on [undefined]
    throws, [None] here. *)
Definition handleEvent (st : Component) : option BoundingRect :=
  match rectRef st with
  | Some rect => Some (getBoundingRect rect)
  | None => None
  end.

Record Emitter : Type := mkEmitter {
  canvasListeners : list CanvasEvent;
  emitCleanup : option CanvasEvent
}.

Definition silent : Emitter := mkEmitter [] None.

Definition canvas_off (name : CanvasEvent) (ls : list CanvasEvent) : list CanvasEvent :=
  filter (fun e => negb (same_canvas_event e name)) ls.

(** The fourth effect. *)
Definition emitEffect (args : PythonArgs.t) (st : Component) (em : Emitter) : Emitter :=
  let ls :=
    match emitCleanup em with
    | Some name => canvas_off name (canvasListeners em)
    | None => canvasListeners em
    end in
  match canvas st with
  | None => mkEmitter ls None
  | Some _ =>
      if PythonArgs.realtimeUpdate args
      then mkEmitter (ls ++ [object_modified]) (Some object_modified)
      else mkEmitter (ls ++ [mouse_dblclick]) (Some mouse_dblclick)
  end.

(** The canvas fires an event: the values sent to the host, one for each
    handler registered for it. *)
Definition fire (name : CanvasEvent) (st : Component) (em : Emitter)
  : list (option BoundingRect) :=
  map (fun _ => handleEvent st)
      (filter (fun e => same_canvas_event e name) (canvasListeners em)).

Fixpoint emitHistory (h : list (PythonArgs.t * Component)) (em : Emitter) : Emitter :=
  match h with
  | [] => em
  | (args, st) :: h' => emitHistory h' (emitEffect args st em)
  end.

(** What the effects keep of their registrations: the handlers on the
    canvas and on the rectangle are those the pending cleanup removes. *)
Definition emitter_invariant (em : Emitter) : Prop :=
  canvasListeners em
  = match emitCleanup em with
    | Some name => [name]
    | None => []
    end.

Definition binding_invariant (b : Binding) : Prop :=
  match bindCleanup b with
  | Some f =>
      exists lock : bool,
        rectListeners b = [mkListener moving f lock; mkListener scaling f lock]
  | None => rectListeners b = []
  end.

(** * Auxiliary facts *)

(** ** Comparisons *)

Lemma Qlt_bool_iff (x y : Q) : Qlt_bool x y = true <-> x < y.
Proof.
  unfold Qlt_bool. rewrite negb_true_iff.
  split; intros H.
  - apply Qnot_le_lt. intros Hle. apply Qle_bool_iff in Hle. congruence.
  - destruct (Qle_bool y x) eqn:E; [|reflexivity].
    apply Qle_bool_iff in E. lra.
Qed.

Lemma Qlt_bool_spec (x y : Q) : BoolSpec (x < y) (y <= x) (Qlt_bool x y).
Proof.
  destruct (Qlt_bool x y) eqn:E; constructor.
  - now apply Qlt_bool_iff.
  - apply Qnot_lt_le. intros H. apply Qlt_bool_iff in H. congruence.
Qed.

Lemma Qle_bool_spec (x y : Q) : BoolSpec (x <= y) (y < x) (Qle_bool x y).
Proof.
  destruct (Qle_bool x y) eqn:E; constructor.
  - now apply Qle_bool_iff.
  - apply Qnot_le_lt. intros H. apply Qle_bool_iff in H. congruence.
Qed.

Lemma Qeq_bool_spec (x y : Q) : BoolSpec (x == y) (~ x == y) (Qeq_bool x y).
Proof.
  destruct (Qeq_bool x y) eqn:E; constructor.
  - now apply Qeq_bool_iff.
  - now apply Qeq_bool_neq.
Qed.

(** ** Division under the guard *)

Lemma divide_positive (a b : Q) : 0 < b -> divide a b = Ok (a / b).
Proof.
  intros Hb. unfold divide.
  destruct (Qeq_bool_spec b 0) as [E|E]; [lra | reflexivity].
Qed.

Lemma Math_min_le_l (a b : Q) : JS.Math_min a b <= a.
Proof.
  unfold JS.Math_min. destruct (Qle_bool_spec a b); lra.
Qed.

Lemma Math_min_le_r (a b : Q) : JS.Math_min a b <= b.
Proof.
  unfold JS.Math_min. destruct (Qle_bool_spec a b); lra.
Qed.

(** ** The phases compute what the function returns *)

Lemma guard_positive (rect : Rect) :
  guard rect = true ->
  0 < JS.or_else (width rect) 0 /\ 0 < JS.or_else (height rect) 0.
Proof.
  unfold guard. rewrite andb_true_iff, !Qlt_bool_iff. tauto.
Qed.

(** Every run returns, and returns the rectangle of the two phases. *)
Lemma keepRectInsideCanvas_run (rect : Rect) (c : Canvas) (lockAspect : bool) :
  keepRectInsideCanvas rect c lockAspect
  = Ok (reposition (rescale rect c lockAspect) c, [SetCoords; RequestRenderAll]).
Proof.
  unfold keepRectInsideCanvas, rescale.
  fold (guard rect).
  destruct (guard rect) eqn:G; [|reflexivity].
  destruct (guard_positive rect G) as [Hw Hh].
  rewrite (divide_positive _ _ Hw). cbn [bind].
  rewrite (divide_positive _ _ Hh). cbn [bind].
  fold (maxScaleX rect c) (maxScaleY rect c).
  destruct lockAspect.
  - fold (maxUniformScale rect c).
    destruct (_ || _); reflexivity.
  - reflexivity.
Qed.

Ltac run := rewrite keepRectInsideCanvas_run; cbn [returns fst snd].

(** ** What each phase leaves alone *)

Lemma rescale_frame (r : Rect) (c : Canvas) (lock : bool) :
  left (rescale r c lock) = left r /\ top (rescale r c lock) = top r /\
  width (rescale r c lock) = width r /\ height (rescale r c lock) = height r /\
  stroke (rescale r c lock) = stroke r /\
  strokeWidth (rescale r c lock) = strokeWidth r /\
  hasRotatingControl (rescale r c lock) = hasRotatingControl r.
Proof.
  unfold rescale.
  destruct (guard r), lock; cbn zeta;
    repeat match goal with |- context [if ?b then _ else _] => destruct b end;
    cbn; repeat split; reflexivity.
Qed.

Lemma rescale_moved (r : Rect) (c : Canvas) (lock : bool) (a b : num) :
  rescale (set_top (set_left r a) b) c lock
  = set_top (set_left (rescale r c lock) a) b.
Proof.
  unfold rescale, guard, maxUniformScale, maxScaleX, maxScaleY. cbn.
  destruct (_ && _), lock; cbn zeta;
    repeat match goal with |- context [if ?b then _ else _] => destruct b end;
    reflexivity.
Qed.

Lemma guard_rescale (r : Rect) (c : Canvas) (lock : bool) :
  guard (rescale r c lock) = guard r.
Proof.
  destruct (rescale_frame r c lock) as (_ & _ & Hw & Hh & _).
  unfold guard. now rewrite Hw, Hh.
Qed.

Lemma maxScale_rescale (r : Rect) (c : Canvas) (lock : bool) :
  maxScaleX (rescale r c lock) c = maxScaleX r c /\
  maxScaleY (rescale r c lock) c = maxScaleY r c.
Proof.
  destruct (rescale_frame r c lock) as (_ & _ & Hw & Hh & _).
  unfold maxScaleX, maxScaleY. now rewrite Hw, Hh.
Qed.

(** ** Running the phases again *)

Lemma rescale_idempotent (r : Rect) (c : Canvas) (lock : bool) :
  rescale (rescale r c lock) c lock = rescale r c lock.
Proof.
  unfold rescale at 1.
  rewrite guard_rescale. unfold maxUniformScale.
  destruct (maxScale_rescale r c lock) as [-> ->].
  fold (maxUniformScale r c).
  unfold rescale.
  destruct (guard r); [|reflexivity].
  destruct lock; cbn zeta.
  - destruct (Qlt_bool (maxUniformScale r c) (JS.or_else (scaleX r) 1)
              || Qlt_bool (maxUniformScale r c) (JS.or_else (scaleY r) 1)) eqn:E.
    + cbn [scaleX scaleY set_scaleX set_scaleY].
      match goal with |- context [if ?b then _ else _] => destruct b end;
        reflexivity.
    + rewrite E. reflexivity.
  - destruct (Qlt_bool (maxScaleX r c) (JS.or_else (scaleX r) 1)) eqn:EX;
      destruct (Qlt_bool (maxScaleY r c) (JS.or_else (scaleY r) 1)) eqn:EY;
      cbn [scaleX scaleY set_scaleX set_scaleY];
      rewrite ?EX, ?EY;
      repeat match goal with |- context [if ?b then _ else _] => destruct b end;
      reflexivity.
Qed.

Lemma Math_max_zero (x : num) (m : Q) :
  JS.Math_max x (Some 0) = Some m -> 0 <= m.
Proof.
  destruct x as [x|]; cbn; [|discriminate].
  intros [= <-]. destruct (Qle_bool_spec x 0); lra.
Qed.

Lemma clamp_again (v : Q) (x : num) :
  let hi := JS.Math_max x (Some 0) in
  clamp (Some (JS.nullish (clamp (Some v) (Some 0) hi) 0)) (Some 0) hi
  = clamp (Some v) (Some 0) hi.
Proof.
  intros hi.
  destruct hi as [m|] eqn:E.
  - apply Math_max_zero in E.
    unfold clamp, JS.gt, JS.lt.
    destruct (Qlt_bool_spec v 0); cbn.
    + destruct (Qlt_bool_spec 0 0); [lra|].
      destruct (Qlt_bool_spec m 0); [lra|reflexivity].
    + destruct (Qlt_bool_spec m v); cbn.
      * destruct (Qlt_bool_spec m 0); [lra|].
        destruct (Qlt_bool_spec m m); [lra|reflexivity].
      * destruct (Qlt_bool_spec v 0); [lra|].
        destruct (Qlt_bool_spec m v); [lra|reflexivity].
  - unfold clamp, JS.gt, JS.lt.
    destruct (Qlt_bool_spec v 0); cbn.
    + destruct (Qlt_bool_spec 0 0); [lra|reflexivity].
    + destruct (Qlt_bool_spec v 0); [lra|reflexivity].
Qed.

Lemma reposition_idempotent (r : Rect) (c : Canvas) :
  reposition (reposition r c) c = reposition r c.
Proof.
  unfold reposition at 1.
  change (maxLeft (reposition r c) c) with (maxLeft r c).
  change (maxTop (reposition r c) c) with (maxTop r c).
  change (left (reposition r c))
    with (clamp (Some (JS.nullish (left r) 0)) (Some 0) (maxLeft r c)).
  change (top (reposition r c))
    with (clamp (Some (JS.nullish (top r) 0)) (Some 0) (maxTop r c)).
  unfold maxLeft, maxTop.
  rewrite !clamp_again.
  reflexivity.
Qed.

(** ** Scale factors after [rescale] *)

Lemma or_else_positive (w : Q) : 0 < w -> JS.or_else (Some w) 0 = w.
Proof.
  intros Hw. unfold JS.or_else.
  destruct (Qeq_bool_spec w 0); [lra | reflexivity].
Qed.

Lemma or_else_scale (s : Q) :
  (s == 0 /\ JS.or_else (Some s) 1 = 1) \/ JS.or_else (Some s) 1 = s.
Proof.
  unfold JS.or_else. destruct (Qeq_bool_spec s 0); auto.
Qed.

Lemma num_eq_refl (a : num) : num_eq a a.
Proof.
  destruct a; cbn; [reflexivity | exact I].
Qed.

Lemma guard_of_positive (r : Rect) (w h : Q) :
  width r = Some w -> height r = Some h -> 0 < w -> 0 < h -> guard r = true.
Proof.
  intros Hw Hh Pw Ph. unfold guard.
  rewrite Hw, Hh, !or_else_positive by assumption.
  apply andb_true_iff. now rewrite !Qlt_bool_iff.
Qed.

(** With a positive base size and set scale factors, each scale factor is
    at most its quotient after [rescale]. *)
Lemma rescale_bounded (r : Rect) (c : Canvas) (lock : bool) (w h sx sy : Q) :
  width r = Some w -> height r = Some h ->
  scaleX r = Some sx -> scaleY r = Some sy ->
  0 < w -> 0 < h ->
  exists s t : Q,
    scaleX (rescale r c lock) = Some s /\ scaleY (rescale r c lock) = Some t /\
    s <= maxScaleX r c /\ t <= maxScaleY r c.
Proof.
  intros Hw Hh Hsx Hsy Pw Ph.
  pose proof (Math_min_le_l (maxScaleX r c) (maxScaleY r c)) as MinX.
  pose proof (Math_min_le_r (maxScaleX r c) (maxScaleY r c)) as MinY.
  fold (maxUniformScale r c) in MinX, MinY.
  unfold rescale.
  rewrite (guard_of_positive r w h Hw Hh Pw Ph), Hsx, Hsy.
  destruct (or_else_scale sx) as [[Zx ->] | ->], (or_else_scale sy) as [[Zy ->] | ->];
    destruct lock; cbn zeta;
    repeat match goal with
           | |- context [Qlt_bool ?a ?b] => destruct (Qlt_bool_spec a b)
           end;
    cbn [orb scaleX scaleY set_scaleX set_scaleY];
    rewrite ?Hsx, ?Hsy;
    do 2 eexists; (split; [reflexivity|]); (split; [reflexivity|]);
    split; lra.
Qed.

(** ** Position after [reposition] *)

(** The clamp of a position into [[0, Math.max(x, 0)]], on finite numbers. *)
Lemma clamp_position (v x : Q) :
  exists m : Q,
    JS.Math_max (Some x) (Some 0) = Some m /\
    0 <= m /\ x <= m /\ (0 <= x -> m == x) /\
    exists p : Q,
      clamp (Some v) (Some 0) (Some m) = Some p /\
      0 <= p <= m /\
      (v < 0 -> p = 0) /\ (m < v -> p = m) /\ (0 <= v <= m -> p = v).
Proof.
  unfold clamp, JS.gt, JS.lt, JS.Math_max.
  eexists. split; [reflexivity|].
  destruct (Qle_bool_spec x 0); cbv iota;
    (split; [lra|]); (split; [lra|]); (split; [intros; lra|]);
    repeat match goal with
           | |- context [Qlt_bool ?a ?b] => destruct (Qlt_bool_spec a b); cbv iota
           end;
    eexists; (split; [reflexivity|]);
    repeat split; intros; try lra; try reflexivity.
Qed.

Lemma reposition_bounded (r : Rect) (c : Canvas) (w h s t : Q) :
  width r = Some w -> height r = Some h ->
  scaleX r = Some s -> scaleY r = Some t ->
  s <= maxScaleX r c -> t <= maxScaleY r c ->
  bounded (reposition r c) c.
Proof.
  intros Hw Hh Hs Ht Bs Bt.
  unfold bounded.
  change (maxLeft (reposition r c) c) with (maxLeft r c).
  change (maxTop (reposition r c) c) with (maxTop r c).
  change (maxScaleX (reposition r c) c) with (maxScaleX r c).
  change (maxScaleY (reposition r c) c) with (maxScaleY r c).
  unfold reposition, maxLeft, maxTop, getScaledWidth, getScaledHeight.
  cbn [left top width height scaleX scaleY set_left set_top].
  rewrite Hw, Hh, Hs, Ht. cbn [JS.mul JS.sub].
  destruct (clamp_position (JS.nullish (left r) 0) (getWidth c - w * s))
    as (m & -> & _ & _ & _ & p & -> & Hp & _).
  destruct (clamp_position (JS.nullish (top r) 0) (getHeight c - h * t))
    as (m' & -> & _ & _ & _ & p' & -> & Hp' & _).
  exists p, p', s, t, m, m'.
  repeat split; try reflexivity; try assumption; try apply Hp; apply Hp'.
Qed.

(** A run on a rectangle of positive base size with set scale factors
    returns a rectangle within its bounds. *)
Lemma run_bounded (r : Rect) (c : Canvas) (lock : bool) (w h sx sy : Q) :
  width r = Some w -> height r = Some h ->
  scaleX r = Some sx -> scaleY r = Some sy ->
  0 < w -> 0 < h ->
  bounded (reposition (rescale r c lock) c) c.
Proof.
  intros Hw Hh Hsx Hsy Pw Ph.
  destruct (rescale_bounded r c lock w h sx sy) as (s & t & Hs & Ht & Bs & Bt);
    try assumption.
  destruct (rescale_frame r c lock) as (_ & _ & Hw' & Hh' & _).
  destruct (maxScale_rescale r c lock) as [EX EY].
  apply (reposition_bounded _ c w h s t); congruence.
Qed.

(** ** The effects of the component *)

(** A rectangle built from the configuration and run through the two phases
    is the configured one. *)
Lemma configured_after_run
    (args : PythonArgs.t) (c : Canvas) (lock : bool) (r0 : Rect)
    (element : option HTMLCanvasElement) :
  left r0 = PythonArgs.rectLeft args -> top r0 = PythonArgs.rectTop args ->
  width r0 = PythonArgs.rectWidth args -> height r0 = PythonArgs.rectHeight args ->
  configured args c
    (mkComponent element (Some c) (Some (reposition (rescale r0 c lock) c))).
Proof.
  intros El Et Ew Eh.
  destruct (rescale_frame r0 c lock) as (Hl & Ht & Hw & Hh & _).
  exists (reposition (rescale r0 c lock) c).
  change (maxLeft (reposition (rescale r0 c lock) c) c)
    with (maxLeft (rescale r0 c lock) c).
  change (maxTop (reposition (rescale r0 c lock) c) c)
    with (maxTop (rescale r0 c lock) c).
  unfold reposition. cbn [rectRef canvas left top width height set_left set_top].
  rewrite Hl, Ht, Hw, Hh, El, Et, Ew, Eh.
  repeat split; reflexivity.
Qed.

(** ** The session *)

(** The session reaches [dragged] before the last configuration update. *)
Lemma session_dragged :
  returns session (fun st => fst st = dragged).
Proof.
  vm_compute. reflexivity.
Qed.

(** * Properties of the specification *)

(** C5.  [keepRectInsideCanvas] is idempotent: a second run on the
    rectangle the first run returned returns that same rectangle, so left,
    top, scaleX and scaleY (and every other field) are those of one run. *)
Theorem keepRectInsideCanvas_idempotent (r : Rect) (c : Canvas) (lock : bool) :
  exists (r1 : Rect) (calls : list Call),
    keepRectInsideCanvas r c lock = Ok (r1, calls) /\
    keepRectInsideCanvas r1 c lock = Ok (r1, calls).
Proof.
  exists (reposition (rescale r c lock) c), [SetCoords; RequestRenderAll].
  split; [apply keepRectInsideCanvas_run|].
  rewrite keepRectInsideCanvas_run.
  unfold reposition at 2.
  rewrite rescale_moved, rescale_idempotent.
  fold (reposition (rescale r c lock) c).
  now rewrite reposition_idempotent.
Qed.

(** C9.  [keepRectInsideCanvas] returns on every input: no run stops at a
    division by zero, because the two divisions are evaluated only under
    the guard [baseWidth > 0 && baseHeight > 0], where [divide] returns. *)
Theorem keepRectInsideCanvas_total (r : Rect) (c : Canvas) (lock : bool) :
  (exists out : Rect * list Call, keepRectInsideCanvas r c lock = Ok out) /\
  (forall a b : Q, divide a b = DivisionByZero <-> b == 0) /\
  (guard r = true ->
   divide (getWidth c) (JS.or_else (width r) 0) = Ok (maxScaleX r c) /\
   divide (getHeight c) (JS.or_else (height r) 0) = Ok (maxScaleY r c)).
Proof.
  split; [|split].
  - eexists. apply keepRectInsideCanvas_run.
  - intros a b. unfold divide.
    destruct (Qeq_bool_spec b 0); split; intros; try easy.
  - intros G. destruct (guard_positive r G) as [Hw Hh].
    split; now apply divide_positive.
Qed.

(** C10.  Frame: a run changes at most left, top, scaleX and scaleY of the
    rectangle; width, height, stroke colour and stroke width are those of
    the input, and the calls made are [setCoords] and [requestRenderAll]. *)
Theorem keepRectInsideCanvas_frame (r : Rect) (c : Canvas) (lock : bool) :
  returns (keepRectInsideCanvas r c lock)
    (fun out =>
       width (fst out) = width r /\ height (fst out) = height r /\
       stroke (fst out) = stroke r /\ strokeWidth (fst out) = strokeWidth r /\
       hasRotatingControl (fst out) = hasRotatingControl r /\
       snd out = [SetCoords; RequestRenderAll]).
Proof.
  run.
  destruct (rescale_frame r c lock) as (_ & _ & Hw & Hh & Hs & Hsw & Hr).
  unfold reposition. cbn.
  repeat split; assumption.
Qed.

(** C1, as stated, fails on a rectangle whose base height is zero: the
    scale clamp is skipped, and the 500 wide rectangle stays wider than the
    400 wide canvas. *)
Lemma always_in_bounds_counterexample :
  1 <= getWidth canvas400x300 /\ 1 <= getHeight canvas400x300 /\
  returns (keepRectInsideCanvas flatRect canvas400x300 false)
    (fun out => ~ inside (fst out) canvas400x300).
Proof.
  split; [|split]; try (unfold Qle; cbn; lia).
  cbn. unfold Qle; cbn. lia.
Qed.

(** C1, amended.  For a rectangle whose base width and height are positive
    and whose scale factors are set, on a canvas of at least 1 by 1 and
    under either value of the aspect-lock flag, the rectangle a run returns
    satisfies 0 <= left <= Math.max(canvasWidth - scaledWidth, 0),
    0 <= top <= Math.max(canvasHeight - scaledHeight, 0),
    scaleX <= canvasWidth / baseWidth and scaleY <= canvasHeight / baseHeight,
    the quotients, the products scaledWidth = baseWidth * scaleX and
    scaledHeight = baseHeight * scaleY and the differences being the values
    the function computes.  (The sums left + scaledWidth <= canvasWidth and
    top + scaledHeight <= canvasHeight follow from these bounds in exact
    arithmetic only, and are not part of the statement.) *)
Theorem keepRectInsideCanvas_bounds
    (r : Rect) (c : Canvas) (lock : bool) (w h sx sy : Q) :
  width r = Some w -> height r = Some h ->
  scaleX r = Some sx -> scaleY r = Some sy ->
  0 < w -> 0 < h ->
  1 <= getWidth c -> 1 <= getHeight c ->
  returns (keepRectInsideCanvas r c lock)
    (fun out =>
       exists l t s s' m m' : Q,
         left (fst out) = Some l /\ top (fst out) = Some t /\
         scaleX (fst out) = Some s /\ scaleY (fst out) = Some s' /\
         JS.Math_max (JS.sub (Some (getWidth c)) (getScaledWidth (fst out))) (Some 0)
         = Some m /\
         JS.Math_max (JS.sub (Some (getHeight c)) (getScaledHeight (fst out))) (Some 0)
         = Some m' /\
         0 <= l <= m /\ 0 <= t <= m' /\
         s <= getWidth c / w /\ s' <= getHeight c / h).
Proof.
  intros Hw Hh Hsx Hsy Pw Ph _ _.
  run.
  destruct (run_bounded r c lock w h sx sy Hw Hh Hsx Hsy Pw Ph)
    as (l & t & s & s' & m & m' & Hl & Ht & Hs & Hs' & Hm & Hm' & Bl & Bt & Bs & Bs').
  exists l, t, s, s', m, m'.
  destruct (rescale_frame r c lock) as (_ & _ & Hw' & Hh' & _).
  unfold maxScaleX, maxScaleY in Bs, Bs'.
  change (width (reposition (rescale r c lock) c))
    with (width (rescale r c lock)) in Bs.
  change (height (reposition (rescale r c lock) c))
    with (height (rescale r c lock)) in Bs'.
  rewrite Hw', Hw, (or_else_positive w Pw) in Bs.
  rewrite Hh', Hh, (or_else_positive h Ph) in Bs'.
  repeat split; try assumption; try apply Bl; apply Bt.
Qed.

Lemma keepRectInsideCanvas_bounds_witness :
  returns (keepRectInsideCanvas (rect100 380 280 5 5) canvas400x300 true)
    (fun out =>
       exists l t s s' m m' : Q,
         left (fst out) = Some l /\ top (fst out) = Some t /\
         scaleX (fst out) = Some s /\ scaleY (fst out) = Some s' /\
         JS.Math_max (JS.sub (Some (getWidth canvas400x300))
                             (getScaledWidth (fst out))) (Some 0)
         = Some m /\
         JS.Math_max (JS.sub (Some (getHeight canvas400x300))
                             (getScaledHeight (fst out))) (Some 0)
         = Some m' /\
         0 <= l <= m /\ 0 <= t <= m' /\
         s <= getWidth canvas400x300 / 100 /\ s' <= getHeight canvas400x300 / 100).
Proof.
  apply (keepRectInsideCanvas_bounds _ _ _ 100 100 5 5);
    try reflexivity; unfold Qle; cbn; lia.
Defined.

(** C2, as stated, fails: under aspect lock, scale factors 1 and 2 on a
    100 by 100 rectangle are both below the uniform maximum 3 and stay as
    they are, unequal. *)
Lemma aspect_lock_counterexample :
  returns (keepRectInsideCanvas (rect100 50 50 1 2) canvas400x300 true)
    (fun out => ~ num_eq (scaleX (fst out)) (scaleY (fst out))).
Proof.
  cbn. unfold Qeq; cbn. lia.
Qed.

(** C2, amended.  Under aspect lock a run sets both scale factors to the
    uniform maximum min(canvasWidth/baseWidth, canvasHeight/baseHeight) when
    the base size is positive and one of the current scale factors exceeds
    it, and leaves both as they are otherwise; so scaleX equals scaleY after
    the run exactly when they were equal before or the clamp fired. *)
Theorem keepRectInsideCanvas_lock (r : Rect) (c : Canvas) :
  returns (keepRectInsideCanvas r c true)
    (fun out =>
       (exceeds_uniform r c ->
        scaleX (fst out) = Some (maxUniformScale r c) /\
        scaleY (fst out) = Some (maxUniformScale r c)) /\
       (~ exceeds_uniform r c ->
        scaleX (fst out) = scaleX r /\ scaleY (fst out) = scaleY r) /\
       (num_eq (scaleX (fst out)) (scaleY (fst out)) <->
        num_eq (scaleX r) (scaleY r) \/ exceeds_uniform r c)).
Proof.
  run. unfold reposition. cbn [scaleX scaleY set_top set_left].
  unfold exceeds_uniform, rescale.
  destruct (guard r).
  - destruct (Qlt_bool_spec (maxUniformScale r c) (JS.or_else (scaleX r) 1));
      destruct (Qlt_bool_spec (maxUniformScale r c) (JS.or_else (scaleY r) 1));
      cbn [orb scaleX scaleY set_scaleX set_scaleY];
      (split; [|split]);
      try (intros; split; reflexivity);
      try (intros N; exfalso; apply N; auto; fail);
      try (intros [_ [N|N]]; exfalso; lra);
      try (split; intros; auto using num_eq_refl; fail).
    split; [auto | intros [E | [_ [N|N]]]; [assumption | lra | lra]].
  - split; [|split].
    + intros [G _]. discriminate.
    + intros _. split; reflexivity.
    + split; [auto | intros [E | [G _]]; [assumption | discriminate]].
Qed.

(** C4, as stated, fails under aspect lock: scaleY = 1 is within its bound
    300/100, but scaleX = 5 exceeds the uniform maximum and the run sets
    both factors to 3. *)
Lemma no_over_correction_counterexample :
  within (scaleY (rect100 0 0 5 1)) (getHeight canvas400x300 / 100) /\
  returns (keepRectInsideCanvas (rect100 0 0 5 1) canvas400x300 true)
    (fun out => ~ num_eq (scaleY (fst out)) (scaleY (rect100 0 0 5 1))).
Proof.
  split.
  - cbn. unfold Qle; cbn. lia.
  - cbn. unfold Qeq; cbn. lia.
Qed.

(** C4, amended.  For a rectangle of positive base size, write current
    scale for the stored factor, or 1 when that is zero or unset.  Without
    aspect lock, an axis whose current scale is at most its maximum
    (canvasWidth/baseWidth, canvasHeight/baseHeight) keeps its scale factor;
    with aspect lock, both factors are kept when both current scales are at
    most the smaller of the two maxima. *)
Theorem keepRectInsideCanvas_no_over_correction (r : Rect) (c : Canvas) (lock : bool) :
  0 < JS.or_else (width r) 0 -> 0 < JS.or_else (height r) 0 ->
  returns (keepRectInsideCanvas r c lock)
    (fun out =>
       (lock = false -> JS.or_else (scaleX r) 1 <= maxScaleX r c ->
        scaleX (fst out) = scaleX r) /\
       (lock = false -> JS.or_else (scaleY r) 1 <= maxScaleY r c ->
        scaleY (fst out) = scaleY r) /\
       (lock = true ->
        JS.or_else (scaleX r) 1 <= maxUniformScale r c ->
        JS.or_else (scaleY r) 1 <= maxUniformScale r c ->
        scaleX (fst out) = scaleX r /\ scaleY (fst out) = scaleY r)).
Proof.
  intros _ _.
  run. unfold reposition. cbn [scaleX scaleY set_top set_left].
  unfold rescale.
  destruct (guard r); [|repeat split; reflexivity].
  destruct lock; cbn zeta.
  - split; [discriminate | split; [discriminate|]].
    intros _ HX HY.
    destruct (Qlt_bool_spec (maxUniformScale r c) (JS.or_else (scaleX r) 1)); [lra|].
    destruct (Qlt_bool_spec (maxUniformScale r c) (JS.or_else (scaleY r) 1)); [lra|].
    split; reflexivity.
  - split; [|split; [|discriminate]]; intros _ H.
    + destruct (Qlt_bool_spec (maxScaleX r c) (JS.or_else (scaleX r) 1)); [lra|].
      destruct (Qlt_bool (maxScaleY r c) (JS.or_else (scaleY r) 1)); reflexivity.
    + destruct (Qlt_bool_spec (maxScaleY r c) (JS.or_else (scaleY r) 1)); [lra|].
      destruct (Qlt_bool (maxScaleX r c) (JS.or_else (scaleX r) 1)); reflexivity.
Qed.

Lemma keepRectInsideCanvas_no_over_correction_witness :
  returns (keepRectInsideCanvas (rect100 50 50 4 1) canvas400x300 false)
    (fun out => scaleX (fst out) = Some 4 /\ scaleY (fst out) = Some 1).
Proof.
  assert (Pw : 0 < JS.or_else (width (rect100 50 50 4 1)) 0) by reflexivity.
  assert (Ph : 0 < JS.or_else (height (rect100 50 50 4 1)) 0) by reflexivity.
  pose proof (keepRectInsideCanvas_no_over_correction
                (rect100 50 50 4 1) canvas400x300 false Pw Ph) as H.
  destruct (keepRectInsideCanvas (rect100 50 50 4 1) canvas400x300 false)
    as [out|]; [|exact H].
  cbn [returns] in *.
  destruct H as (HX & HY & _).
  split.
  - apply HX; [reflexivity | unfold Qle; cbn; lia].
  - apply HY; [reflexivity | unfold Qle; cbn; lia].
Defined.

(** C6.  Canvas 400 by 300, base 100 by 100, scaleX = scaleY = 5, from any
    position: without aspect lock a run returns scaleX = 4, scaleY = 3 and
    the rectangle at (0, 0); with aspect lock it returns
    scaleX = scaleY = min(4, 3) = 3. *)
Theorem scenario_oversized (l t : num) (color : string) (sw : num) (rot : bool) :
  returns (keepRectInsideCanvas
             (mkRect l t (Some 100) (Some 100) (Some 5) (Some 5) color sw rot)
             canvas400x300 false)
    (fun out =>
       num_eq (scaleX (fst out)) (Some 4) /\ num_eq (scaleY (fst out)) (Some 3) /\
       num_eq (left (fst out)) (Some 0) /\ num_eq (top (fst out)) (Some 0) /\
       num_eq (getScaledWidth (fst out)) (Some 400) /\
       num_eq (getScaledHeight (fst out)) (Some 300)) /\
  returns (keepRectInsideCanvas
             (mkRect l t (Some 100) (Some 100) (Some 5) (Some 5) color sw rot)
             canvas400x300 true)
    (fun out =>
       num_eq (scaleX (fst out)) (Some 3) /\ num_eq (scaleY (fst out)) (Some 3) /\
       JS.Math_min 4 3 == 3).
Proof.
  split.
  - run.
    set (r1 := rescale _ _ _). vm_compute in r1. subst r1.
    unfold reposition, maxLeft, maxTop.
    cbn [left top width height scaleX scaleY set_left set_top
         getScaledWidth getScaledHeight getWidth getHeight canvas400x300
         JS.mul JS.sub num_eq].
    destruct (clamp_position (JS.nullish l 0) (400 - 100 * (400 # 100)))
      as (m & -> & _ & _ & Hm & p & -> & Hp & _).
    destruct (clamp_position (JS.nullish t 0) (300 - 100 * (300 # 100)))
      as (m' & -> & _ & _ & Hm' & p' & -> & Hp' & _).
    assert (m == 0) by (rewrite Hm; [reflexivity | unfold Qle; cbn; lia]).
    assert (m' == 0) by (rewrite Hm'; [reflexivity | unfold Qle; cbn; lia]).
    cbn [num_eq].
    repeat split; try reflexivity; lra.
  - run.
    set (r1 := rescale _ _ _). vm_compute in r1. subst r1.
    unfold reposition. cbn [scaleX scaleY set_left set_top fst num_eq].
    repeat split; reflexivity.
Qed.

(** C7.  A run clamps the position by the interval clamp: left into
    [0, Math.max(canvasWidth - scaledWidth, 0)], top into
    [0, Math.max(canvasHeight - scaledHeight, 0)], on the scaled size of the
    rectangle it returns; a value below 0 becomes 0, a value above the
    maximum becomes the maximum, a value in between stays.  A 100 by 100
    rectangle at (380, 280) on the 400 by 300 canvas is moved to
    (300, 200). *)
Theorem keepRectInsideCanvas_position (r : Rect) (c : Canvas) (lock : bool) :
  returns (keepRectInsideCanvas r c lock)
    (fun out =>
       left (fst out)
       = clamp (Some (JS.nullish (left r) 0)) (Some 0) (maxLeft (fst out) c) /\
       top (fst out)
       = clamp (Some (JS.nullish (top r) 0)) (Some 0) (maxTop (fst out) c) /\
       (forall sw : Q, getScaledWidth (fst out) = Some sw ->
        exists m p : Q,
          maxLeft (fst out) c = Some m /\ left (fst out) = Some p /\
          0 <= p <= m /\
          (JS.nullish (left r) 0 < 0 -> p = 0) /\
          (m < JS.nullish (left r) 0 -> p = m) /\
          (0 <= JS.nullish (left r) 0 <= m -> p = JS.nullish (left r) 0)) /\
       (forall sh : Q, getScaledHeight (fst out) = Some sh ->
        exists m p : Q,
          maxTop (fst out) c = Some m /\ top (fst out) = Some p /\
          0 <= p <= m /\
          (JS.nullish (top r) 0 < 0 -> p = 0) /\
          (m < JS.nullish (top r) 0 -> p = m) /\
          (0 <= JS.nullish (top r) 0 <= m -> p = JS.nullish (top r) 0))) /\
  returns (keepRectInsideCanvas (rect100 380 280 1 1) canvas400x300 lock)
    (fun out =>
       maxLeft (fst out) canvas400x300 = Some 300 /\
       maxTop (fst out) canvas400x300 = Some 200 /\
       left (fst out) = Some 300 /\ top (fst out) = Some 200).
Proof.
  split.
  - run.
    destruct (rescale_frame r c lock) as (Hl & Ht & _).
    change (maxLeft (reposition (rescale r c lock) c) c)
      with (maxLeft (rescale r c lock) c).
    change (maxTop (reposition (rescale r c lock) c) c)
      with (maxTop (rescale r c lock) c).
    change (getScaledWidth (reposition (rescale r c lock) c))
      with (getScaledWidth (rescale r c lock)).
    change (getScaledHeight (reposition (rescale r c lock) c))
      with (getScaledHeight (rescale r c lock)).
    unfold reposition. cbn [left top set_left set_top].
    rewrite Hl, Ht.
    split; [reflexivity|]. split; [reflexivity|].
    split.
    + intros sw Hsw. unfold maxLeft. rewrite Hsw. cbn [JS.sub].
      destruct (clamp_position (JS.nullish (left r) 0) (getWidth c - sw))
        as (m & -> & _ & _ & _ & p & -> & Hp & H1 & H2 & H3).
      exists m, p. destruct Hp. repeat split; try reflexivity; assumption.
    + intros sh Hsh. unfold maxTop. rewrite Hsh. cbn [JS.sub].
      destruct (clamp_position (JS.nullish (top r) 0) (getHeight c - sh))
        as (m & -> & _ & _ & _ & p & -> & Hp & H1 & H2 & H3).
      exists m, p. destruct Hp. repeat split; try reflexivity; assumption.
  - destruct lock; vm_compute; auto.
Qed.

(** C8.  When the base width or the base height is zero or unset, a run
    returns (it is not an error), both scale factors are those of the
    input, and left and top are clamped as in every run. *)
Theorem keepRectInsideCanvas_degenerate (r : Rect) (c : Canvas) (lock : bool) :
  zero_or_unset (width r) \/ zero_or_unset (height r) ->
  returns (keepRectInsideCanvas r c lock)
    (fun out =>
       scaleX (fst out) = scaleX r /\ scaleY (fst out) = scaleY r /\
       left (fst out)
       = clamp (Some (JS.nullish (left r) 0)) (Some 0) (maxLeft r c) /\
       top (fst out)
       = clamp (Some (JS.nullish (top r) 0)) (Some 0) (maxTop r c)).
Proof.
  intros D. run.
  assert (Z : forall x, zero_or_unset x -> Qlt_bool 0 (JS.or_else x 0) = false).
  { intros [q|] Hq; cbn in *; [|reflexivity].
    destruct (Qeq_bool_spec q 0); [reflexivity | contradiction]. }
  assert (G : guard r = false).
  { unfold guard. destruct D as [D|D]; rewrite (Z _ D);
      [reflexivity | apply andb_false_r]. }
  unfold rescale. rewrite G.
  unfold reposition. cbn. auto.
Qed.

Lemma keepRectInsideCanvas_degenerate_witness :
  returns (keepRectInsideCanvas flatRect canvas400x300 true)
    (fun out =>
       scaleX (fst out) = scaleX flatRect /\ scaleY (fst out) = scaleY flatRect /\
       left (fst out)
       = clamp (Some (JS.nullish (left flatRect) 0)) (Some 0)
               (maxLeft flatRect canvas400x300) /\
       top (fst out)
       = clamp (Some (JS.nullish (top flatRect) 0)) (Some 0)
               (maxTop flatRect canvas400x300)).
Proof.
  apply keepRectInsideCanvas_degenerate.
  right. reflexivity.
Defined.

(** C3, as stated, fails: after the rectangle was dragged to (10, 20), a
    configuration update that only changes the colour puts it back at the
    configured (50, 50). *)
Lemma reconfigure_keeps_geometry_counterexample :
  returns session
    (fun st =>
       exists before after : Rect,
         rectRef (fst st) = Some before /\ rectRef (snd st) = Some after /\
         left before = Some 10 /\ top before = Some 20 /\
         left after = Some 50 /\ top after = Some 50 /\
         ~ same_position_and_size after before).
Proof.
  vm_compute.
  do 2 eexists. repeat split.
  intros (E & _). discriminate E.
Qed.

(** C3, amended.  A configuration update on an initialised component
    overwrites left, top, width and height of the rectangle with rectLeft,
    rectTop, rectWidth and rectHeight of the incoming configuration and
    then runs [keepRectInsideCanvas]: afterwards width and height are the
    configured ones and left and top are the configured position clamped
    into the canvas, whatever position and size the rectangle had.  The
    first initialisation takes them from the configuration in the same
    way. *)
Theorem reconfigureEffect_geometry
    (args : PythonArgs.t) (st : Component) (c : Canvas) (r : Rect) :
  canvas st = Some c -> rectRef st = Some r ->
  returns (reconfigureEffect args st) (fun out => configured args c (fst out)) /\
  (forall (element : HTMLCanvasElement) (ref : option Rect),
      returns (initEffect args (mkComponent (Some element) None ref))
        (fun out =>
           configured args
             (mkCanvas (elementWidth element) (elementHeight element)) (fst out))).
Proof.
  intros Hc Hr.
  split.
  - unfold reconfigureEffect. rewrite Hc, Hr.
    rewrite keepRectInsideCanvas_run. cbn [bind returns fst].
    apply configured_after_run; reflexivity.
  - intros element ref.
    unfold initEffect. cbn [canvasRef canvas].
    rewrite keepRectInsideCanvas_run. cbn [bind returns fst].
    apply configured_after_run; reflexivity.
Qed.

Lemma reconfigureEffect_geometry_witness :
  returns (reconfigureEffect blueArgs dragged)
    (fun out => configured blueArgs canvas400x300 (fst out)).
Proof.
  apply (reconfigureEffect_geometry blueArgs dragged canvas400x300 draggedRect);
    reflexivity.
Defined.

(** * Further properties of [clamp] and [keepRectInsideCanvas] *)

(** X1.  With [min <= max], [clamp] returns a value of the interval
    [[min, max]]; a value of the interval is returned as it is, and
    clamping a second time changes nothing. *)
Theorem clamp_range (v lo hi : Q) :
  lo <= hi ->
  exists p : Q,
    clamp (Some v) (Some lo) (Some hi) = Some p /\
    lo <= p <= hi /\
    (lo <= v <= hi -> p = v) /\
    clamp (Some p) (Some lo) (Some hi) = Some p.
Proof.
  intros Hle. unfold clamp, JS.gt, JS.lt.
  destruct (Qlt_bool_spec v lo) as [H1|H1].
  - exists lo. repeat split; try lra.
    destruct (Qlt_bool_spec lo lo); [lra|].
    destruct (Qlt_bool_spec hi lo); [lra | reflexivity].
  - destruct (Qlt_bool_spec hi v) as [H2|H2].
    + exists hi. repeat split; try lra.
      destruct (Qlt_bool_spec hi lo); [lra|].
      destruct (Qlt_bool_spec hi hi); [lra | reflexivity].
    + exists v. repeat split; try lra.
      destruct (Qlt_bool_spec v lo); [lra|].
      destruct (Qlt_bool_spec hi v); [lra | reflexivity].
Qed.

Lemma clamp_range_witness :
  exists p : Q,
    clamp (Some 380) (Some 0) (Some 300) = Some p /\
    0 <= p <= 300 /\
    (0 <= 380 <= 300 -> p = 380) /\
    clamp (Some p) (Some 0) (Some 300) = Some p.
Proof.
  apply (clamp_range 380 0 300). unfold Qle; cbn; lia.
Defined.

(** X2.  With [min <= max], [clamp] is monotone in the value: a larger
    value is never clamped to a smaller result. *)
Theorem clamp_monotone (v v' lo hi : Q) :
  lo <= hi -> v <= v' ->
  exists p p' : Q,
    clamp (Some v) (Some lo) (Some hi) = Some p /\
    clamp (Some v') (Some lo) (Some hi) = Some p' /\
    p <= p'.
Proof.
  intros Hle Hv. unfold clamp, JS.gt, JS.lt.
  destruct (Qlt_bool_spec v lo); destruct (Qlt_bool_spec v' lo);
    destruct (Qlt_bool_spec hi v); destruct (Qlt_bool_spec hi v');
    do 2 eexists; (split; [reflexivity|]); (split; [reflexivity|]); lra.
Qed.

Lemma clamp_monotone_witness :
  exists p p' : Q,
    clamp (Some (-5)) (Some 0) (Some 300) = Some p /\
    clamp (Some 380) (Some 0) (Some 300) = Some p' /\
    p <= p'.
Proof.
  apply (clamp_monotone (-5) 380 0 300); unfold Qle; cbn; lia.
Defined.

(** X3.  For a rectangle whose left and top are finite numbers or unset,
    whatever its size and scale factors (degenerate, unset, scaled size not
    a number), the position a run returns is a pair of finite numbers, both
    at least 0.  (A position that is [NaN] is not covered: the rectangles
    here have none.) *)
Theorem keepRectInsideCanvas_position_nonnegative
    (r : Rect) (c : Canvas) (lock : bool) :
  returns (keepRectInsideCanvas r c lock)
    (fun out =>
       exists l t : Q,
         left (fst out) = Some l /\ top (fst out) = Some t /\ 0 <= l /\ 0 <= t).
Proof.
  run. unfold reposition. cbn [left top set_left set_top].
  assert (P : forall (v : Q) (x : num),
             exists p : Q,
               clamp (Some v) (Some 0) (JS.Math_max x (Some 0)) = Some p /\ 0 <= p).
  { intros v x.
    destruct (JS.Math_max x (Some 0)) as [m|] eqn:E.
    - apply Math_max_zero in E. unfold clamp, JS.gt, JS.lt.
      destruct (Qlt_bool_spec v 0); [exists 0; split; [reflexivity | lra]|].
      destruct (Qlt_bool_spec m v); eexists; (split; [reflexivity | lra]).
    - unfold clamp, JS.gt, JS.lt.
      destruct (Qlt_bool_spec v 0); eexists; (split; [reflexivity | lra]). }
  unfold maxLeft, maxTop.
  destruct (P (JS.nullish (left (rescale r c lock)) 0)
              (JS.sub (Some (getWidth c)) (getScaledWidth (rescale r c lock))))
    as (l & -> & Hl).
  destruct (P (JS.nullish (top (rescale r c lock)) 0)
              (JS.sub (Some (getHeight c)) (getScaledHeight (rescale r c lock))))
    as (t & -> & Ht).
  exists l, t. auto.
Qed.

Lemma set_left_same (r : Rect) : set_left r (left r) = r.
Proof. destruct r; reflexivity. Qed.

Lemma set_top_same (r : Rect) : set_top r (top r) = r.
Proof. destruct r; reflexivity. Qed.

Lemma or_else_nonzero (s d : Q) : ~ s == 0 -> JS.or_else (Some s) d = s.
Proof.
  intros H. unfold JS.or_else. destruct (Qeq_bool_spec s 0); [contradiction | reflexivity].
Qed.

(** The scale clamp leaves a rectangle alone whose scale factors are not
    zero and at most their quotients (and equal, under aspect lock). *)
Lemma rescale_within (r : Rect) (c : Canvas) (lock : bool) (sx sy : Q) :
  scaleX r = Some sx -> scaleY r = Some sy ->
  ~ sx == 0 -> ~ sy == 0 ->
  sx <= maxScaleX r c -> sy <= maxScaleY r c ->
  (lock = true -> sx == sy) ->
  rescale r c lock = r.
Proof.
  intros Hsx Hsy Nx Ny BX BY Hlock.
  unfold rescale.
  destruct (guard r); [|reflexivity].
  rewrite Hsx, Hsy.
  rewrite (or_else_nonzero sx 1 Nx), (or_else_nonzero sy 1 Ny).
  destruct lock; cbn zeta.
  - specialize (Hlock eq_refl).
    unfold maxUniformScale, JS.Math_min.
    destruct (Qle_bool_spec (maxScaleX r c) (maxScaleY r c));
      repeat match goal with
             | |- context [Qlt_bool ?a ?b] => destruct (Qlt_bool_spec a b); try lra
             end;
      reflexivity.
  - repeat match goal with
           | |- context [Qlt_bool ?a ?b] => destruct (Qlt_bool_spec a b); try lra
           end.
    reflexivity.
Qed.

Lemma clamp_inside (l m : Q) :
  0 <= l <= m -> clamp (Some l) (Some 0) (Some m) = Some l.
Proof.
  intros [H0 Hm]. unfold clamp, JS.gt, JS.lt.
  destruct (Qlt_bool_spec l 0); [lra|].
  destruct (Qlt_bool_spec m l); [lra | reflexivity].
Qed.

(** X4.  A rectangle that is within the bounds a run establishes is
    returned unchanged: 0 <= left <= Math.max(canvasWidth - scaledWidth, 0),
    the same for top, scale factors not zero and at most
    canvasWidth / baseWidth and canvasHeight / baseHeight (all as the
    function computes them) and, under aspect lock, scaleX equal to
    scaleY. *)
Theorem keepRectInsideCanvas_fixes_bounded
    (r : Rect) (c : Canvas) (lock : bool) (sx sy : Q) :
  scaleX r = Some sx -> scaleY r = Some sy ->
  ~ sx == 0 -> ~ sy == 0 ->
  bounded r c ->
  (lock = true -> sx == sy) ->
  keepRectInsideCanvas r c lock = Ok (r, [SetCoords; RequestRenderAll]).
Proof.
  intros Hsx Hsy Nx Ny
         (l & t & s & s' & m & m' & Hl & Ht & Hs & Hs' & Hm & Hm' & Bl & Bt & Bs & Bs')
         Hlock.
  assert (s = sx) by congruence. assert (s' = sy) by congruence. subst s s'.
  rewrite keepRectInsideCanvas_run. do 2 f_equal.
  rewrite (rescale_within r c lock sx sy) by assumption.
  unfold reposition. rewrite Hm, Hm', Hl, Ht. cbn [JS.nullish].
  rewrite (clamp_inside l m Bl), (clamp_inside t m' Bt).
  rewrite <- Hl, set_left_same, <- Ht.
  apply set_top_same.
Qed.

Lemma keepRectInsideCanvas_fixes_bounded_witness :
  keepRectInsideCanvas (rect100 50 50 1 1) canvas400x300 true
  = Ok (rect100 50 50 1 1, [SetCoords; RequestRenderAll]).
Proof.
  apply (keepRectInsideCanvas_fixes_bounded _ _ _ 1 1);
    try reflexivity; try (intros E; discriminate E).
  exists 50, 50, 1, 1, 300, 200.
  repeat split; try reflexivity; unfold Qle; cbn; lia.
Defined.

(** X5.  Without aspect lock, on a rectangle of positive base size whose
    scale factors are set and not zero, each scale factor becomes the
    smaller of itself and its own maximum: scaleX = min(scaleX,
    canvasWidth / width), scaleY = min(scaleY, canvasHeight / height); the
    other axis plays no part. *)
Theorem keepRectInsideCanvas_free_scale
    (r : Rect) (c : Canvas) (w h sx sy : Q) :
  width r = Some w -> height r = Some h ->
  scaleX r = Some sx -> scaleY r = Some sy ->
  0 < w -> 0 < h -> ~ sx == 0 -> ~ sy == 0 ->
  returns (keepRectInsideCanvas r c false)
    (fun out =>
       scaleX (fst out) = Some (JS.Math_min sx (getWidth c / w)) /\
       scaleY (fst out) = Some (JS.Math_min sy (getHeight c / h))).
Proof.
  intros Hw Hh Hsx Hsy Pw Ph Nx Ny.
  run. unfold reposition. cbn [scaleX scaleY set_left set_top].
  unfold rescale, maxScaleX, maxScaleY.
  rewrite (guard_of_positive r w h Hw Hh Pw Ph), Hw, Hh, Hsx, Hsy.
  rewrite (or_else_nonzero sx 1 Nx), (or_else_nonzero sy 1 Ny).
  rewrite (or_else_positive w Pw), (or_else_positive h Ph).
  unfold JS.Math_min.
  destruct (Qlt_bool_spec (getWidth c / w) sx);
    destruct (Qlt_bool_spec (getHeight c / h) sy);
    destruct (Qle_bool_spec sx (getWidth c / w)); try lra;
    destruct (Qle_bool_spec sy (getHeight c / h)); try lra;
    cbn [scaleX scaleY set_scaleX set_scaleY]; rewrite ?Hsx, ?Hsy;
    split; reflexivity.
Qed.

Lemma keepRectInsideCanvas_free_scale_witness :
  returns (keepRectInsideCanvas (rect100 0 0 5 2) canvas400x300 false)
    (fun out =>
       scaleX (fst out) = Some (JS.Math_min 5 (getWidth canvas400x300 / 100)) /\
       scaleY (fst out) = Some (JS.Math_min 2 (getHeight canvas400x300 / 100))).
Proof.
  apply (keepRectInsideCanvas_free_scale _ _ 100 100 5 2);
    try reflexivity; intros E; discriminate E.
Defined.

(** X6.  With aspect lock, on a rectangle of positive base size, both
    current scale factors (the stored factor, or 1 when it is zero or
    unset) are at most the uniform maximum
    min(canvasWidth / width, canvasHeight / height) after the run. *)
Theorem keepRectInsideCanvas_lock_bound (r : Rect) (c : Canvas) :
  0 < JS.or_else (width r) 0 -> 0 < JS.or_else (height r) 0 ->
  0 < getWidth c -> 0 < getHeight c ->
  returns (keepRectInsideCanvas r c true)
    (fun out =>
       JS.or_else (scaleX (fst out)) 1 <= maxUniformScale r c /\
       JS.or_else (scaleY (fst out)) 1 <= maxUniformScale r c).
Proof.
  intros Pw Ph Pcw Pch.
  run. unfold reposition. cbn [scaleX scaleY set_left set_top].
  assert (G : guard r = true).
  { unfold guard. apply andb_true_iff. now rewrite !Qlt_bool_iff. }
  assert (Pm : 0 < maxUniformScale r c).
  { unfold maxUniformScale, JS.Math_min, maxScaleX, maxScaleY.
    destruct (Qle_bool _ _); apply Qlt_shift_div_l; lra. }
  unfold rescale. rewrite G.
  destruct (Qlt_bool_spec (maxUniformScale r c) (JS.or_else (scaleX r) 1));
    destruct (Qlt_bool_spec (maxUniformScale r c) (JS.or_else (scaleY r) 1));
    cbn [orb scaleX scaleY set_scaleX set_scaleY];
    rewrite ?or_else_nonzero by lra; split; lra.
Qed.

Lemma keepRectInsideCanvas_lock_bound_witness :
  returns (keepRectInsideCanvas (rect100 0 0 1 5) canvas400x300 true)
    (fun out =>
       JS.or_else (scaleX (fst out)) 1
       <= maxUniformScale (rect100 0 0 1 5) canvas400x300 /\
       JS.or_else (scaleY (fst out)) 1
       <= maxUniformScale (rect100 0 0 1 5) canvas400x300).
Proof.
  apply keepRectInsideCanvas_lock_bound; reflexivity.
Defined.

(** * Properties of the component over sequences of events *)

Lemma returns_bind {A B : Type} (m : outcome A) (k : A -> outcome B)
    (P : A -> Prop) (Q : B -> Prop) :
  returns m P -> (forall a, P a -> returns (k a) Q) -> returns (bind m k) Q.
Proof.
  destruct m as [a|]; cbn; [|contradiction].
  intros Ha Hk. now apply Hk.
Qed.

Lemma returns_weaken {A : Type} (m : outcome A) (P Q : A -> Prop) :
  returns m P -> (forall a, P a -> Q a) -> returns m Q.
Proof.
  destruct m as [a|]; cbn; [|contradiction].
  intros Ha H. now apply H.
Qed.

(** ** The canvas stays as it was created *)

Lemma reconfigureEffect_canvas (args : PythonArgs.t) (st : Component) :
  returns (reconfigureEffect args st) (fun out => canvas (fst out) = canvas st).
Proof.
  unfold reconfigureEffect.
  destruct (canvas st) as [c|] eqn:Ec; [|cbn; congruence].
  destruct (rectRef st) as [r|] eqn:Er; [|cbn; congruence].
  rewrite keepRectInsideCanvas_run. reflexivity.
Qed.

Lemma enforceBounds_canvas (lock : bool) (st : Component) :
  returns (enforceBounds lock st) (fun out => canvas (fst out) = canvas st).
Proof.
  unfold enforceBounds.
  destruct (canvas st) as [c|] eqn:Ec; [|cbn; congruence].
  destruct (rectRef st) as [r|] eqn:Er; [|cbn; congruence].
  rewrite keepRectInsideCanvas_run. reflexivity.
Qed.

Lemma onMoving_canvas (args : PythonArgs.t) (x y : Q) (st : Component) :
  returns (onMoving args x y st) (fun out => canvas (fst out) = canvas st).
Proof.
  unfold onMoving.
  destruct (canvas st) as [c|] eqn:Ec; [|cbn; congruence].
  destruct (rectRef st) as [r|] eqn:Er; [|cbn; congruence].
  rewrite keepRectInsideCanvas_run. reflexivity.
Qed.

Lemma onScaling_canvas (args : PythonArgs.t) (sx sy x y : Q) (st : Component) :
  returns (onScaling args sx sy x y st) (fun out => canvas (fst out) = canvas st).
Proof.
  unfold onScaling.
  destruct (canvas st) as [c|] eqn:Ec; [|cbn; congruence].
  destruct (rectRef st) as [r|] eqn:Er; [|cbn; congruence].
  rewrite keepRectInsideCanvas_run. reflexivity.
Qed.

Lemma step_canvas (a : Action) (w : Widget) :
  returns (step a w) (fun w' => canvas (hooks w') = canvas (hooks w)).
Proof.
  destruct a as [args | x y | sx sy x y]; cbn [step].
  - unfold rerender.
    eapply returns_bind; [apply reconfigureEffect_canvas|].
    intros o2 H2. cbn [render canvas] in H2.
    destruct (Bool.eqb _ _).
    + cbn. exact H2.
    + eapply returns_bind; [apply enforceBounds_canvas|].
      intros o3 H3. cbn. congruence.
  - eapply returns_bind; [apply onMoving_canvas|].
    intros out H. exact H.
  - eapply returns_bind; [apply onScaling_canvas|].
    intros out H. exact H.
Qed.

Lemma steps_canvas (l : list Action) (w : Widget) :
  returns (steps l w) (fun w' => canvas (hooks w') = canvas (hooks w)).
Proof.
  revert w. induction l as [|a l IH]; intros w; cbn [steps].
  - reflexivity.
  - eapply returns_bind; [apply step_canvas|].
    intros w1 H1. cbn beta in H1.
    eapply returns_weaken; [apply IH|].
    intros w2 H2. cbn beta in *. congruence.
Qed.

Lemma mount_canvas (args : PythonArgs.t) :
  returns (mount args)
    (fun w =>
       canvas (hooks w)
       = Some (mkCanvas (PythonArgs.canvasWidth args) (PythonArgs.canvasHeight args))).
Proof.
  unfold mount, initEffect. cbn [render unmounted canvasRef canvas].
  rewrite keepRectInsideCanvas_run. cbn [bind fst].
  eapply returns_bind; [apply reconfigureEffect_canvas|].
  intros o2 H2. cbn [render canvas elementWidth elementHeight] in H2.
  eapply returns_bind; [apply enforceBounds_canvas|].
  intros o3 H3. cbn. congruence.
Qed.

(** X7.  The canvas the constraint works with is the one created at
    initialisation: after any sequence of configuration updates, moves and
    scalings its size is canvasWidth by canvasHeight of the first
    configuration, whatever sizes later configurations carry. *)
Theorem canvas_size_is_initial (args : PythonArgs.t) (l : list Action) :
  returns (w <- mount args ;; steps l w)
    (fun w =>
       canvas (hooks w)
       = Some (mkCanvas (PythonArgs.canvasWidth args) (PythonArgs.canvasHeight args))).
Proof.
  eapply returns_bind; [apply mount_canvas|].
  intros w0 H0. cbn beta in H0.
  eapply returns_weaken; [apply steps_canvas|].
  intros w1 H1. cbn beta in *. congruence.
Qed.

(** ** The rectangle stays within its bounds *)

Lemma run_settles (r0 : Rect) (c : Canvas) (lock : bool) (w h sx sy : Q)
    (element : option HTMLCanvasElement) :
  width r0 = Some w -> height r0 = Some h -> 0 < w -> 0 < h ->
  scaleX r0 = Some sx -> scaleY r0 = Some sy ->
  settled c (mkComponent element (Some c) (Some (reposition (rescale r0 c lock) c))).
Proof.
  intros Hw Hh Pw Ph Hsx Hsy.
  destruct (rescale_frame r0 c lock) as (_ & _ & Hw' & Hh' & _).
  split; [reflexivity|].
  exists (reposition (rescale r0 c lock) c), w, h.
  split; [reflexivity|].
  change (width (reposition (rescale r0 c lock) c)) with (width (rescale r0 c lock)).
  change (height (reposition (rescale r0 c lock) c)) with (height (rescale r0 c lock)).
  repeat split; try congruence; try assumption.
  now apply (run_bounded r0 c lock w h sx sy).
Qed.

Lemma enforceBounds_settled (lock : bool) (c : Canvas) (st : Component) :
  settled c st ->
  returns (enforceBounds lock st) (fun out => settled c (fst out)).
Proof.
  intros (Hc & r & w & h & Hr & Hw & Hh & Pw & Ph &
          _ & _ & sx & sy & _ & _ & _ & _ & Hsx & Hsy & _).
  unfold enforceBounds. rewrite Hc, Hr, keepRectInsideCanvas_run. cbn [bind returns fst].
  now apply (run_settles r c lock w h sx sy).
Qed.

Lemma onMoving_settled (args : PythonArgs.t) (x y : Q) (c : Canvas) (st : Component) :
  settled c st ->
  returns (onMoving args x y st) (fun out => settled c (fst out)).
Proof.
  intros (Hc & r & w & h & Hr & Hw & Hh & Pw & Ph &
          _ & _ & sx & sy & _ & _ & _ & _ & Hsx & Hsy & _).
  unfold onMoving. rewrite Hc, Hr, keepRectInsideCanvas_run. cbn [bind returns fst].
  now apply (run_settles _ c _ w h sx sy).
Qed.

Lemma onScaling_settled
    (args : PythonArgs.t) (sx sy x y : Q) (c : Canvas) (st : Component) :
  settled c st ->
  returns (onScaling args sx sy x y st) (fun out => settled c (fst out)).
Proof.
  intros (Hc & r & w & h & Hr & Hw & Hh & Pw & Ph & _).
  unfold onScaling. rewrite Hc, Hr, keepRectInsideCanvas_run. cbn [bind returns fst].
  now apply (run_settles _ c _ w h sx sy).
Qed.

Lemma reconfigureEffect_settled (args : PythonArgs.t) (c : Canvas) (st : Component) :
  well_sized args -> settled c st ->
  returns (reconfigureEffect args st) (fun out => settled c (fst out)).
Proof.
  intros (w & h & Hw & Hh & Pw & Ph)
         (Hc & r & _ & _ & Hr & _ & _ & _ & _ &
          _ & _ & sx & sy & _ & _ & _ & _ & Hsx & Hsy & _).
  unfold reconfigureEffect. rewrite Hc, Hr, keepRectInsideCanvas_run.
  cbn [bind returns fst].
  now apply (run_settles _ c _ w h sx sy).
Qed.

Lemma render_settled (args : PythonArgs.t) (c : Canvas) (st : Component) :
  settled c st -> settled c (render args st).
Proof.
  intros H. exact H.
Qed.

Lemma step_settled (a : Action) (c : Canvas) (w : Widget) :
  well_sized_action a ->
  settled c (hooks w) ->
  returns (step a w) (fun w' => settled c (hooks w')).
Proof.
  intros Ha Hs.
  destruct a as [args | x y | sx sy x y]; cbn [step well_sized_action] in *.
  - unfold rerender.
    eapply returns_bind.
    { apply (reconfigureEffect_settled args c); [assumption|].
      now apply render_settled. }
    intros o2 H2. cbn beta in H2.
    destruct (Bool.eqb _ _).
    + exact H2.
    + eapply returns_bind; [now apply (enforceBounds_settled _ c)|].
      intros o3 H3. exact H3.
  - eapply returns_bind; [now apply (onMoving_settled _ _ _ c)|].
    intros out H. exact H.
  - eapply returns_bind; [now apply (onScaling_settled _ _ _ _ _ c)|].
    intros out H. exact H.
Qed.

Lemma steps_settled (l : list Action) (c : Canvas) (w : Widget) :
  Forall well_sized_action l ->
  settled c (hooks w) ->
  returns (steps l w) (fun w' => settled c (hooks w')).
Proof.
  intros Hl. revert w.
  induction Hl as [|a l Ha Hl IH]; intros w Hs; cbn [steps].
  - exact Hs.
  - eapply returns_bind; [now apply (step_settled a c)|].
    intros w1 H1. now apply IH.
Qed.

Lemma mount_settled (args : PythonArgs.t) :
  well_sized args ->
  returns (mount args)
    (fun w =>
       settled (mkCanvas (PythonArgs.canvasWidth args) (PythonArgs.canvasHeight args))
               (hooks w)).
Proof.
  intros Hargs.
  pose proof Hargs as (w & h & Hw & Hh & Pw & Ph).
  set (c := mkCanvas (PythonArgs.canvasWidth args) (PythonArgs.canvasHeight args)).
  unfold mount, initEffect. cbn [render unmounted canvasRef canvas].
  rewrite keepRectInsideCanvas_run. cbn [bind fst elementWidth elementHeight].
  fold c.
  eapply returns_bind.
  { apply (reconfigureEffect_settled args c); [assumption|].
    apply render_settled.
    now apply (run_settles _ c _ w h 1 1). }
  intros o2 H2. cbn beta in H2.
  eapply returns_bind; [now apply (enforceBounds_settled _ c)|].
  intros o3 H3. exact H3.
Qed.

Lemma settled_after_steps (args : PythonArgs.t) (l : list Action) :
  well_sized args -> Forall well_sized_action l ->
  returns (w <- mount args ;; steps l w)
    (fun w =>
       settled (mkCanvas (PythonArgs.canvasWidth args) (PythonArgs.canvasHeight args))
               (hooks w)).
Proof.
  intros Hargs Hl.
  eapply returns_bind; [now apply mount_settled|].
  intros w0 H0. cbn beta in H0.
  now apply steps_settled.
Qed.

(** X8.  When the first configuration and every later one give the
    rectangle a positive width and height, the rectangle is within the
    bounds of the canvas after initialisation and after every configuration
    update, move and scaling that follows, in any order:
    0 <= left <= Math.max(canvasWidth - scaledWidth, 0), the same for top,
    scaleX <= canvasWidth / width and scaleY <= canvasHeight / height, all as
    [keepRectInsideCanvas] computes them. *)
Theorem rectangle_stays_bounded (args : PythonArgs.t) (l : list Action) :
  well_sized args ->
  Forall well_sized_action l ->
  returns (w <- mount args ;; steps l w) kept_in_bounds.
Proof.
  intros Hargs Hl.
  eapply returns_weaken; [now apply settled_after_steps|].
  intros w1 (Hc & r & _ & _ & Hr & _ & _ & _ & _ & Hb).
  exists (mkCanvas (PythonArgs.canvasWidth args) (PythonArgs.canvasHeight args)), r.
  auto.
Qed.

Lemma rectangle_stays_bounded_witness :
  returns (w <- mount redArgs ;;
           steps [Moving 1000 (-5); Scaling 9 9 0 0; NewArgs blueArgs; Moving 390 290] w)
          kept_in_bounds.
Proof.
  assert (S : forall color, well_sized
            (PythonArgs.mk 400 300 (Some 50) (Some 50) (Some 100) (Some 100)
                           true color (Some 2) "" false)).
  { intros color. exists 100, 100. repeat split. }
  apply rectangle_stays_bounded.
  - apply S.
  - repeat constructor. apply S.
Defined.

(** ** Running an effect again *)

Lemma rebuilt_is_rescaled (r0 : Rect) (c : Canvas) (lock : bool) :
  mkRect (left r0) (top r0) (width r0) (height r0)
         (scaleX (reposition (rescale r0 c lock) c))
         (scaleY (reposition (rescale r0 c lock) c))
         (stroke r0) (strokeWidth r0) (hasRotatingControl r0)
  = rescale r0 c lock.
Proof.
  destruct (rescale_frame r0 c lock) as (Hl & Ht & Hw & Hh & Hs & Hsw & Hr).
  unfold reposition. cbn [scaleX scaleY set_left set_top].
  rewrite <- Hl, <- Ht, <- Hw, <- Hh, <- Hs, <- Hsw, <- Hr.
  destruct (rescale r0 c lock). reflexivity.
Qed.

Ltac rebuilt :=
  match goal with |- context [reposition (rescale ?r0 ?c ?lock) ?c] =>
    let E := fresh "E" in
    pose proof (rebuilt_is_rescaled r0 c lock) as E;
    cbn [left top width height stroke strokeWidth hasRotatingControl] in E;
    rewrite E; clear E
  end.

(** X9.  Receiving the same configuration a second time changes nothing
    more: the second run of the reconfigure effect returns the state and
    the calls of the first. *)
Theorem reconfigureEffect_again (args : PythonArgs.t) (st : Component) :
  returns (reconfigureEffect args st)
    (fun out => reconfigureEffect args (fst out) = Ok out).
Proof.
  unfold reconfigureEffect at 1.
  destruct (canvas st) as [c|] eqn:Ec;
    [destruct (rectRef st) as [r|] eqn:Er|].
  - rewrite keepRectInsideCanvas_run. cbn [bind returns fst].
    unfold reconfigureEffect. cbn [canvas rectRef canvasRef].
    rebuilt.
    rewrite keepRectInsideCanvas_run, rescale_idempotent.
    reflexivity.
  - cbn [returns fst]. unfold reconfigureEffect. rewrite Ec, Er. reflexivity.
  - cbn [returns fst]. unfold reconfigureEffect. rewrite Ec. reflexivity.
Qed.

(** X10.  The canvas and the rectangle are created once: on the state an
    initialisation returned, the initialisation effect does nothing,
    whatever configuration it is given. *)
Theorem initEffect_once (args args' : PythonArgs.t) (st : Component) :
  returns (initEffect args st)
    (fun out => initEffect args' (fst out) = Ok (fst out, [])).
Proof.
  unfold initEffect at 1.
  destruct (canvasRef st) as [element|] eqn:Ee;
    [destruct (canvas st) as [c|] eqn:Ec|].
  - cbn [returns fst]. unfold initEffect. rewrite Ee, Ec. reflexivity.
  - rewrite keepRectInsideCanvas_run. cbn [bind returns fst].
    unfold initEffect. cbn [canvasRef canvas]. reflexivity.
  - cbn [returns fst]. unfold initEffect. rewrite Ee. reflexivity.
Qed.

(** X11.  The render that follows the initialisation (the one [setCanvas]
    causes, with the same configuration) leaves the component as the
    initialisation made it: the reconfigure effect returns the same canvas
    and the same rectangle. *)
Theorem reconfigureEffect_after_init (args : PythonArgs.t) :
  returns (initEffect args (render args unmounted))
    (fun o1 =>
       returns (reconfigureEffect args (render args (fst o1)))
         (fun o2 => fst o2 = fst o1)).
Proof.
  unfold initEffect. cbn [render unmounted canvasRef canvas].
  rewrite keepRectInsideCanvas_run. cbn [bind returns fst].
  unfold reconfigureEffect. cbn [render canvas rectRef canvasRef].
  rebuilt.
  rewrite keepRectInsideCanvas_run, rescale_idempotent.
  reflexivity.
Qed.

(** * Properties of the listeners *)

Lemma emitEffect_invariant (args : PythonArgs.t) (st : Component) (em : Emitter) :
  emitter_invariant em -> emitter_invariant (emitEffect args st em).
Proof.
  unfold emitter_invariant, emitEffect. intros ->.
  destruct (emitCleanup em) as [[|]|];
    (destruct (canvas st); [destruct (PythonArgs.realtimeUpdate args)|]);
    reflexivity.
Qed.

Lemma emitHistory_invariant (h : list (PythonArgs.t * Component)) (em : Emitter) :
  emitter_invariant em -> emitter_invariant (emitHistory h em).
Proof.
  revert em. induction h as [|[args st] h IH]; intros em H; cbn [emitHistory].
  - exact H.
  - apply IH. now apply emitEffect_invariant.
Qed.

(** X12.  After any number of renders in either mode, a render on an
    initialised component leaves exactly one handler on the canvas, that of
    its own mode: with realtimeUpdate, "object:modified" sends one value,
    the bounding rectangle of the rectangle, and "mouse:dblclick" sends
    none; without it, the other way round. *)
Theorem emission_follows_mode
    (h : list (PythonArgs.t * Component)) (args : PythonArgs.t)
    (st : Component) (c : Canvas) (r : Rect) :
  canvas st = Some c -> rectRef st = Some r ->
  fire object_modified st (emitEffect args st (emitHistory h silent))
  = (if PythonArgs.realtimeUpdate args then [Some (getBoundingRect r)] else []) /\
  fire mouse_dblclick st (emitEffect args st (emitHistory h silent))
  = (if PythonArgs.realtimeUpdate args then [] else [Some (getBoundingRect r)]).
Proof.
  intros Hc Hr.
  pose proof (emitHistory_invariant h silent eq_refl) as I.
  unfold emitter_invariant in I.
  unfold fire, emitEffect, handleEvent. rewrite I, Hc, Hr.
  destruct (emitCleanup (emitHistory h silent)) as [[|]|];
    destruct (PythonArgs.realtimeUpdate args); split; reflexivity.
Qed.

Lemma emission_follows_mode_witness :
  fire object_modified dragged
       (emitEffect blueArgs dragged
          (emitHistory [(redArgs, unmounted); (redArgs, dragged)] silent))
  = [Some (getBoundingRect draggedRect)] /\
  fire mouse_dblclick dragged
       (emitEffect blueArgs dragged
          (emitHistory [(redArgs, unmounted); (redArgs, dragged)] silent))
  = [].
Proof.
  apply (emission_follows_mode
           [(redArgs, unmounted); (redArgs, dragged)] blueArgs dragged
           canvas400x300 draggedRect); reflexivity.
Defined.

Lemma rebind_invariant (args : PythonArgs.t) (st : Component) (b : Binding) :
  binding_invariant b -> binding_invariant (rebind args st b).
Proof.
  unfold binding_invariant, rebind. intros I.
  assert (E : match bindCleanup b with
              | Some f => rect_off scaling f (rect_off moving f (rectListeners b))
              | None => rectListeners b
              end = []).
  { destruct (bindCleanup b) as [f|]; [|exact I].
    destruct I as [lock ->].
    unfold rect_off. cbn. rewrite Nat.eqb_refl. cbn. rewrite Nat.eqb_refl.
    reflexivity. }
  rewrite E.
  destruct (canvas st); [destruct (rectRef st)|]; cbn; eauto.
Qed.

Lemma bindHistory_invariant (h : list (PythonArgs.t * Component)) (b : Binding) :
  binding_invariant b -> binding_invariant (bindHistory h b).
Proof.
  revert b. induction h as [|[args st] h IH]; intros b H; cbn [bindHistory].
  - exact H.
  - apply IH. now apply rebind_invariant.
Qed.

Lemma enforceBounds_eta (lock : bool) (st : Component) :
  (o <- enforceBounds lock st ;; Ok (fst o, snd o ++ [])) = enforceBounds lock st.
Proof.
  destruct (enforceBounds lock st) as [[st' calls]|]; cbn; [|reflexivity].
  now rewrite app_nil_r.
Qed.

(** X13.  After any number of runs of the listener effect, a run on an
    initialised component leaves one "moving" and one "scaling" handler on
    the rectangle, both holding the lockAspect of that run: any state in
    which the rectangle then fires either event goes through
    [keepRectInsideCanvas] exactly once, with the current flag. *)
Theorem gesture_runs_current_listener
    (h : list (PythonArgs.t * Component)) (args : PythonArgs.t)
    (st : Component) (c : Canvas) (r : Rect) (name : RectEvent) (st' : Component) :
  canvas st = Some c -> rectRef st = Some r ->
  dispatch (rectListeners (rebind args st (bindHistory h unbound))) name st'
  = enforceBounds (PythonArgs.lockAspect args) st'.
Proof.
  intros Hc Hr.
  pose proof (bindHistory_invariant h unbound eq_refl) as I.
  unfold binding_invariant in I. unfold rebind. rewrite Hc, Hr.
  cbn [rectListeners].
  assert (E : match bindCleanup (bindHistory h unbound) with
              | Some f =>
                  rect_off scaling f
                    (rect_off moving f (rectListeners (bindHistory h unbound)))
              | None => rectListeners (bindHistory h unbound)
              end = []).
  { destruct (bindCleanup (bindHistory h unbound)) as [f|]; [|exact I].
    destruct I as [lock ->].
    unfold rect_off. cbn. rewrite Nat.eqb_refl. cbn. rewrite Nat.eqb_refl.
    reflexivity. }
  rewrite E. cbn [app].
  destruct name; cbn [dispatch heard capturedLock same_rect_event];
    apply enforceBounds_eta.
Qed.

Lemma gesture_runs_current_listener_witness :
  dispatch
    (rectListeners
       (rebind blueArgs dragged
          (bindHistory [(redArgs, unmounted); (redArgs, dragged)] unbound)))
    scaling dragged
  = enforceBounds (PythonArgs.lockAspect blueArgs) dragged.
Proof.
  apply (gesture_runs_current_listener
           [(redArgs, unmounted); (redArgs, dragged)] blueArgs dragged
           canvas400x300 draggedRect scaling dragged); reflexivity.
Defined.

(** * Gestures on a rectangle within its bounds, and what the host receives *)

Lemma run_again (r : Rect) (c : Canvas) (lock : bool) :
  reposition (rescale (reposition (rescale r c lock) c) c lock) c
  = reposition (rescale r c lock) c.
Proof.
  unfold reposition at 2.
  rewrite rescale_moved, rescale_idempotent.
  fold (reposition (rescale r c lock) c).
  apply reposition_idempotent.
Qed.

(** X14.  Dragging a rectangle whose scale factors are within their bounds
    (not zero, at most canvasWidth / baseWidth and canvasHeight / baseHeight
    as the function computes them and, under aspect lock, equal) never
    resizes it: after a "moving" event towards (x, y) the size and the
    scale factors are the same, and the position is (x, y) clamped, on each
    axis, into [0, Math.max(canvas - scaled, 0)]: 0 for a negative request,
    the maximum for a request beyond it, the request itself in between. *)
Theorem onMoving_clamps_position
    (args : PythonArgs.t) (x y : Q) (st : Component) (c : Canvas) (r : Rect)
    (w h sx sy : Q) :
  canvas st = Some c -> rectRef st = Some r ->
  width r = Some w -> height r = Some h ->
  scaleX r = Some sx -> scaleY r = Some sy ->
  ~ sx == 0 -> ~ sy == 0 ->
  sx <= maxScaleX r c -> sy <= maxScaleY r c ->
  (PythonArgs.lockAspect args = true -> sx == sy) ->
  returns (onMoving args x y st)
    (fun out =>
       exists (r' : Rect) (p q m m' : Q),
         rectRef (fst out) = Some r' /\
         width r' = Some w /\ height r' = Some h /\
         scaleX r' = Some sx /\ scaleY r' = Some sy /\
         left r' = Some p /\ top r' = Some q /\
         maxLeft r' c = Some m /\ maxTop r' c = Some m' /\
         0 <= p <= m /\ 0 <= q <= m' /\
         (x < 0 -> p = 0) /\ (m < x -> p = m) /\ (0 <= x <= m -> p = x) /\
         (y < 0 -> q = 0) /\ (m' < y -> q = m') /\ (0 <= y <= m' -> q = y)).
Proof.
  intros Hc Hr Hw Hh Hsx Hsy Nx Ny BX BY Hlock.
  unfold onMoving. rewrite Hc, Hr, keepRectInsideCanvas_run.
  cbn [bind returns fst rectRef].
  rewrite rescale_moved.
  rewrite (rescale_within r c _ sx sy) by assumption.
  destruct (clamp_position x (getWidth c - w * sx))
    as (m & Em & _ & _ & _ & p & Ep & Hp & Hp0 & Hp1 & Hp2).
  destruct (clamp_position y (getHeight c - h * sy))
    as (m' & Em' & _ & _ & _ & q & Eq & Hq & Hq0 & Hq1 & Hq2).
  assert (EL : forall a b, maxLeft (set_top (set_left r a) b) c = Some m).
  { intros a b. unfold maxLeft, getScaledWidth.
    cbn [width scaleX set_left set_top]. rewrite Hw, Hsx. exact Em. }
  assert (ET : forall a b, maxTop (set_top (set_left r a) b) c = Some m').
  { intros a b. unfold maxTop, getScaledHeight.
    cbn [height scaleY set_left set_top]. rewrite Hh, Hsy. exact Em'. }
  unfold reposition. rewrite EL, ET.
  cbn [left top set_left set_top JS.nullish]. rewrite Ep, Eq.
  eexists _, p, q, m, m'.
  split; [reflexivity|].
  change (set_top (set_left (set_top (set_left r (Some x)) (Some y)) (Some p)) (Some q))
    with (set_top (set_left r (Some p)) (Some q)).
  rewrite EL, ET.
  cbn [left top width height scaleX scaleY set_left set_top].
  repeat (split; [first [reflexivity | assumption]|]).
  assumption.
Qed.

Lemma onMoving_clamps_position_witness :
  returns (onMoving blueArgs 380 (-3) dragged)
    (fun out =>
       exists (r' : Rect) (p q m m' : Q),
         rectRef (fst out) = Some r' /\
         width r' = Some 100 /\ height r' = Some 100 /\
         scaleX r' = Some 1 /\ scaleY r' = Some 1 /\
         left r' = Some p /\ top r' = Some q /\
         maxLeft r' canvas400x300 = Some m /\ maxTop r' canvas400x300 = Some m' /\
         0 <= p <= m /\ 0 <= q <= m' /\
         (380 < 0 -> p = 0) /\ (m < 380 -> p = m) /\ (0 <= 380 <= m -> p = 380) /\
         (-3 < 0 -> q = 0) /\ (m' < -3 -> q = m') /\ (0 <= -3 <= m' -> q = -3)).
Proof.
  apply (onMoving_clamps_position blueArgs 380 (-3) dragged canvas400x300 draggedRect
           100 100 1 1);
    try reflexivity;
    try (intros E; discriminate E);
    unfold Qle; cbn; lia.
Defined.

(** X15.  The call of [enforceBounds] that the listener effect makes when
    it runs (line 180) changes nothing after the reconfigure effect of the
    same render: the component is the one the reconfigure effect
    returned. *)
Theorem enforceBounds_after_reconfigure (args : PythonArgs.t) (st : Component) :
  returns (reconfigureEffect args st)
    (fun o2 =>
       returns (enforceBounds (PythonArgs.lockAspect args) (fst o2))
         (fun o3 => fst o3 = fst o2)).
Proof.
  unfold reconfigureEffect.
  destruct (canvas st) as [c|] eqn:Ec;
    [destruct (rectRef st) as [r|] eqn:Er|].
  - rewrite keepRectInsideCanvas_run. cbn [bind returns fst].
    unfold enforceBounds. cbn [canvas rectRef canvasRef].
    rewrite keepRectInsideCanvas_run, run_again. reflexivity.
  - cbn [returns fst]. unfold enforceBounds. rewrite Ec, Er. reflexivity.
  - cbn [returns fst]. unfold enforceBounds. rewrite Ec. reflexivity.
Qed.

(** X16.  With a positive rectangle size in every configuration, after
    any sequence of updates, moves and scalings [handleEvent] finds the
    rectangle, and the coords it sends to the host are finite numbers with
    0 <= left <= Math.max(canvasWidth - width, 0) and
    0 <= top <= Math.max(canvasHeight - height, 0), for canvasWidth and
    canvasHeight of the first configuration and the differences as
    [keepRectInsideCanvas] computes them. *)
Theorem reported_box_bounded (args : PythonArgs.t) (l : list Action) :
  well_sized args ->
  Forall well_sized_action l ->
  returns (w <- mount args ;; steps l w)
    (fun w =>
       exists bl bt bw bh m m' : Q,
         handleEvent (hooks w)
         = Some (mkBoundingRect (Some bl) (Some bt) (Some bw) (Some bh)) /\
         JS.Math_max (JS.sub (Some (PythonArgs.canvasWidth args)) (Some bw)) (Some 0)
         = Some m /\
         JS.Math_max (JS.sub (Some (PythonArgs.canvasHeight args)) (Some bh)) (Some 0)
         = Some m' /\
         0 <= bl <= m /\ 0 <= bt <= m').
Proof.
  intros Hargs Hl.
  eapply returns_weaken; [now apply settled_after_steps|].
  intros w1 (Hc & r & _ & _ & Hr & _ & _ & _ & _ &
             bl & bt & _ & _ & m & m' & Hl' & Ht' & _ & _ & Hm & Hm' & Bl & Bt & _).
  unfold handleEvent, getBoundingRect. rewrite Hr, Hl', Ht'.
  unfold maxLeft, maxTop in Hm, Hm'. cbn [getWidth getHeight] in Hm, Hm'.
  destruct (getScaledWidth r) as [bw|]; [|discriminate Hm].
  destruct (getScaledHeight r) as [bh|]; [|discriminate Hm'].
  exists bl, bt, bw, bh, m, m'. auto.
Qed.

Lemma reported_box_bounded_witness :
  returns (w <- mount redArgs ;;
           steps [Scaling 7 (1 # 2) 30 30; NewArgs blueArgs; Moving (-20) 500] w)
    (fun w =>
       exists bl bt bw bh m m' : Q,
         handleEvent (hooks w)
         = Some (mkBoundingRect (Some bl) (Some bt) (Some bw) (Some bh)) /\
         JS.Math_max (JS.sub (Some (PythonArgs.canvasWidth redArgs)) (Some bw)) (Some 0)
         = Some m /\
         JS.Math_max (JS.sub (Some (PythonArgs.canvasHeight redArgs)) (Some bh)) (Some 0)
         = Some m' /\
         0 <= bl <= m /\ 0 <= bt <= m').
Proof.
  assert (S : forall color, well_sized
            (PythonArgs.mk 400 300 (Some 50) (Some 50) (Some 100) (Some 100)
                           true color (Some 2) "" false)).
  { intros color. exists 100, 100. repeat split. }
  apply reported_box_bounded.
  - apply S.
  - repeat constructor. apply S.
Defined.
